(** * Crazy Clock: the 10 Hz tick infrastructure (base.c) and the lazy
    clock (lazy.c), embedded in Rocq.

    The firmware runs on an ATtiny45 (avr-gcc): [unsigned char] is 8 bits,
    [int] 16 bits, [long] 32 bits.  Integers are modelled as [Z] with the
    wrap-around of every conversion written out.  Right shifts of a
    negative [long] are arithmetic and left shifts wrap modulo 2^32, as
    avr-gcc compiles them.

    The main context is a state-and-event monad over the statics, the
    registers and the EEPROM; the compare-match handler is a function on
    the same state.  [sleep_mode()] returns after the handler has run
    once.  Interrupts that fire while the main context is busy are steps
    of their own between its calls: the handler and the main context
    share only [sleep_miss_counter], so an interrupt inside a call acts
    as one just before or just after it. *)

From Stdlib Require Import ZArith List Lia Bool.
Import ListNotations.
Local Open Scope Z_scope.

(** ** Machine integers *)

Module Word.

Definition u8 (z : Z) : Z := z mod 2 ^ 8.
Definition u32 (z : Z) : Z := z mod 2 ^ 32.
Definition s16 (z : Z) : Z := (z + 2 ^ 15) mod 2 ^ 16 - 2 ^ 15.
Definition s32 (z : Z) : Z := (z + 2 ^ 31) mod 2 ^ 32 - 2 ^ 31.

Definition is_u32 (z : Z) : Prop := 0 <= z < 2 ^ 32.
Definition is_s32 (z : Z) : Prop := - 2 ^ 31 <= z < 2 ^ 31.

(** [_BV(bit)] of avr/sfr_defs.h. *)
Definition _BV (bit : Z) : Z := Z.shiftl 1 bit.

End Word.
Import Word.

(** ** The pseudo-random generator (base.c, lines 89-98) *)

Module Prng.

(** [#define M (0x7fffffffL)] *)
Definition M : Z := 0x7fffffff.

(** The assignment and the normalisation of [q_random], on the value of
    the static [seed].  Every [long] operation is wrapped to 32 bits. *)
Definition q_step (seed : Z) : Z :=
  let a := Z.land (s32 (Z.shiftl seed 15)) M in
  let b := Z.land (s32 (Z.shiftl seed 10)) M in
  let t := s32 (s32 (s32 (Z.shiftr seed 16 + a) - Z.shiftr seed 21) - b) in
  if t <? 0 then s32 (t + M) else t.

(** The recurrence as the specification words it, over unbounded
    integers: no wrap-around anywhere. *)
Definition next_spec (seed : Z) : Z :=
  let r := Z.shiftr seed 16 + (Z.shiftl seed 15) mod 2 ^ 31
           - Z.shiftr seed 21 - (Z.shiftl seed 10) mod 2 ^ 31 in
  if r <? 0 then r + (2 ^ 31 - 1) else r.

(** The first [n] outputs of the generator started on [seed]: the values
    [q_random] returns, [(unsigned long) seed] after each step. *)
Fixpoint outputs (step : Z -> Z) (n : nat) (seed : Z) : list Z :=
  match n with
  | O => []
  | S n' => let seed' := step seed in u32 seed' :: outputs step n' seed'
  end.

(** The unnormalised sum, written with quotients and remainders. *)
Definition raw_sum (seed : Z) : Z :=
  seed / 2 ^ 16 + (seed mod 2 ^ 16) * 2 ^ 15
  - seed / 2 ^ 21 - (seed mod 2 ^ 21) * 2 ^ 10.

End Prng.
Import Prng.

(** ** Build-time configuration (base.c, lines 55-82) *)

Record Config := mkConfig {
  CLOCK_CYCLES : Z;
  CLOCK_BASIC_CYCLE : Z;
  CLOCK_NUM_LONG_CYCLES : Z;
  SW_TRIM : bool;
  DEBUG : bool
}.

Definition FOUR_MHZ_CLOCK (trim dbg : bool) : Config :=
  mkConfig 64 (48 - 1) 53 trim dbg.

Definition THIRTYTWO_KHZ_CLOCK (trim dbg : bool) : Config :=
  mkConfig 5 (51 - 1) 1 trim dbg.

Definition SEED_UPDATE_INTERVAL : Z := 864000.
Definition P0 : Z := 0.
Definition P1 : Z := 1.
Definition P_UNUSED : Z := 2.
Definition TICK_LENGTH : Z := 35.

(** ** Machine state

    The statics of base.c, the two registers the code writes and the two
    EEPROM slots: the seed dword at offset 0 and the trim word at offset
    4, both kept as the raw unsigned contents. *)

Record State := mkState {
  seed : Z;                 (* static long *)
  seed_update_timer : Z;    (* static unsigned long *)
  sleep_miss_counter : Z;   (* volatile static unsigned char *)
  lastTick : Z;             (* static unsigned char, in doTick *)
  cycle_pos : Z;            (* static unsigned char, in the ISR *)
  trim_pos : Z;             (* static unsigned long, in the ISR *)
  PORTB : Z;
  OCR0A : Z;
  ee_seed : Z;
  ee_trim : Z
}.

Definition set_seed (v : Z) (s : State) : State :=
  mkState v (seed_update_timer s) (sleep_miss_counter s) (lastTick s)
    (cycle_pos s) (trim_pos s) (PORTB s) (OCR0A s) (ee_seed s) (ee_trim s).

Definition set_seed_update_timer (v : Z) (s : State) : State :=
  mkState (seed s) v (sleep_miss_counter s) (lastTick s)
    (cycle_pos s) (trim_pos s) (PORTB s) (OCR0A s) (ee_seed s) (ee_trim s).

Definition set_sleep_miss_counter (v : Z) (s : State) : State :=
  mkState (seed s) (seed_update_timer s) v (lastTick s)
    (cycle_pos s) (trim_pos s) (PORTB s) (OCR0A s) (ee_seed s) (ee_trim s).

Definition set_lastTick (v : Z) (s : State) : State :=
  mkState (seed s) (seed_update_timer s) (sleep_miss_counter s) v
    (cycle_pos s) (trim_pos s) (PORTB s) (OCR0A s) (ee_seed s) (ee_trim s).

Definition set_PORTB (v : Z) (s : State) : State :=
  mkState (seed s) (seed_update_timer s) (sleep_miss_counter s) (lastTick s)
    (cycle_pos s) (trim_pos s) v (OCR0A s) (ee_seed s) (ee_trim s).

Definition set_OCR0A (v : Z) (s : State) : State :=
  mkState (seed s) (seed_update_timer s) (sleep_miss_counter s) (lastTick s)
    (cycle_pos s) (trim_pos s) (PORTB s) v (ee_seed s) (ee_trim s).

Definition set_ee_seed (v : Z) (s : State) : State :=
  mkState (seed s) (seed_update_timer s) (sleep_miss_counter s) (lastTick s)
    (cycle_pos s) (trim_pos s) (PORTB s) (OCR0A s) v (ee_trim s).

(** The state at reset: statics zeroed, registers at their reset value,
    the EEPROM holding whatever it held. *)
Definition power_on (eeprom_seed eeprom_trim : Z) : State :=
  mkState 0 0 0 P0 0 0 0 0 eeprom_seed eeprom_trim.

(** ** Effects

    What the firmware does to the outside world, in order. [EvConsume]
    is a ghost event: one per pass through the atomic block of
    [doSleep], carrying the value saved in [local_smc]. *)

Inductive Event :=
| EvPort (v : Z)
| EvDelay (ms : Z)
| EvEeWrite (v : Z)
| EvConsume (local_smc : Z)
| EvSleep.

(** A main-context call either returns or locks the CPU up in
    [while(1);] (the DEBUG branch of [doSleep]). *)
Inductive Outcome (A : Type) :=
| Done (a : A) (s : State) (evs : list Event)
| Locked (s : State) (evs : list Event).
Arguments Done {A} a s evs.
Arguments Locked {A} s evs.

Definition Prog (A : Type) : Type := State -> Outcome A.

Definition ret {A} (a : A) : Prog A := fun s => Done a s [].

Definition bind {A B} (m : Prog A) (k : A -> Prog B) : Prog B := fun s =>
  match m s with
  | Done a s1 e1 =>
      match k a s1 with
      | Done b s2 e2 => Done b s2 (e1 ++ e2)
      | Locked s2 e2 => Locked s2 (e1 ++ e2)
      end
  | Locked s1 e1 => Locked s1 e1
  end.

Declare Scope clock_scope.
Delimit Scope clock_scope with clock.
Notation "x <- m ;; k" := (bind m (fun x => k))
  (at level 61, m at next level, right associativity) : clock_scope.
Notation "m ;; k" := (bind m (fun _ => k))
  (at level 61, right associativity) : clock_scope.
Local Open Scope clock_scope.

Definition read {A} (f : State -> A) : Prog A := fun s => Done (f s) s [].
Definition modify (f : State -> State) : Prog unit :=
  fun s => Done tt (f s) [].
Definition emit (e : Event) : Prog unit := fun s => Done tt s [e].
Definition lock_up : Prog unit := fun s => Locked s [].

Definition final {A} (o : Outcome A) : State :=
  match o with Done _ s _ => s | Locked s _ => s end.

Definition events {A} (o : Outcome A) : list Event :=
  match o with Done _ _ e => e | Locked _ e => e end.

Definition returns {A} (o : Outcome A) : bool :=
  match o with Done _ _ _ => true | Locked _ _ => false end.

(** [for (int i = 0; i < n; i++) body] for a body that does not use [i]. *)
Fixpoint for_loop (n : nat) (body : Prog unit) : Prog unit :=
  match n with
  | O => ret tt
  | S n' => body ;; for_loop n' body
  end.

Definition write_PORTB (v : Z) : Prog unit :=
  modify (set_PORTB v) ;; emit (EvPort v).

Definition _delay_ms (ms : Z) : Prog unit := emit (EvDelay ms).

(** Observations on an event list. *)
Definition is_consume (e : Event) : bool :=
  match e with EvConsume _ => true | _ => false end.
Definition is_sleep (e : Event) : bool :=
  match e with EvSleep => true | _ => false end.
Definition is_delay (e : Event) : bool :=
  match e with EvDelay _ => true | _ => false end.
Definition is_pin_event (e : Event) : bool :=
  match e with EvPort _ | EvDelay _ => true | _ => false end.

Definition ticks_consumed (evs : list Event) : nat :=
  length (filter is_consume evs).
Definition pulses (evs : list Event) : nat :=
  length (filter is_delay evs).
Definition eeprom_writes (evs : list Event) : list Z :=
  flat_map (fun e => match e with EvEeWrite v => [v] | _ => [] end) evs.
Definition port_values (evs : list Event) : list Z :=
  flat_map (fun e => match e with EvPort v => [v] | _ => [] end) evs.

(** Both coil pins high in a value of PORTB. *)
Definition both_energized (v : Z) : bool :=
  Z.testbit v P0 && Z.testbit v P1.

Section Firmware.

Variable cfg : Config.

(** ** The timer interrupt (base.c, lines 153-186) *)

Definition ISR (s : State) : State :=
  let '(tp, offset) :=
    if SW_TRIM cfg then
      let crystal_cycles := OCR0A s in
      let '(tp1, off) :=
        if trim_pos s <? crystal_cycles
        then (u32 (trim_pos s + 10000000), s16 (ee_trim s))
        else (trim_pos s, 0) in
      (u32 (tp1 - crystal_cycles), off)
    else (trim_pos s, 0) in
  let cp := u8 (cycle_pos s + 1) in
  let ocr1 :=
    if cp =? CLOCK_NUM_LONG_CYCLES cfg
    then u8 (CLOCK_BASIC_CYCLE cfg + offset) else OCR0A s in
  let '(ocr2, cp2) :=
    if cp >=? CLOCK_CYCLES cfg
    then (u8 (CLOCK_BASIC_CYCLE cfg + 1 + offset), 0) else (ocr1, cp) in
  mkState (seed s) (seed_update_timer s) (u8 (sleep_miss_counter s + 1))
    (lastTick s) cp2 tp (PORTB s) ocr2 (ee_seed s) (ee_trim s).

(** [k] compare-match interrupts in a row. *)
Fixpoint interrupts (k : nat) (s : State) : State :=
  match k with
  | O => s
  | S k' => interrupts k' (ISR s)
  end.

(** The timer counts from 0 to OCR0A inclusive: the interval that ends
    in the next compare match lasts OCR0A + 1 timer clocks. *)
Definition interval (s : State) : Z := OCR0A s + 1.

(** Timer clocks elapsed over the next [k] interrupts. *)
Fixpoint elapsed (k : nat) (s : State) : Z :=
  match k with
  | O => 0
  | S k' => interval s + elapsed k' (ISR s)
  end.

(** ** The seed store (base.c, lines 94-105) *)

Definition q_random : Prog Z :=
  s <- read seed ;;
  modify (set_seed (q_step s)) ;;
  s' <- read seed ;;
  ret (u32 s').

Definition updateSeed : Prog unit :=
  stored <- read ee_seed ;;
  s <- read seed ;;
  if s32 stored =? s then ret tt
  else modify (set_ee_seed (u32 s)) ;; emit (EvEeWrite (u32 s)).

(** ** Sleeping (base.c, lines 107-134) *)

(** [sleep_mode()]: the CPU idles until the compare match, the handler
    runs, and the call returns. *)
Definition sleep_mode : Prog unit :=
  emit EvSleep ;; modify ISR.

(** Lines 112-124: the countdown to the next seed update and the atomic
    block; the result is [local_smc]. *)
Definition eat_tick : Prog Z :=
  t <- read seed_update_timer ;;
  modify (set_seed_update_timer (u32 (t - 1))) ;;
  (if u32 (t - 1) =? 0
   then updateSeed ;; modify (set_seed_update_timer SEED_UPDATE_INTERVAL)
   else ret tt) ;;
  local_smc <- read sleep_miss_counter ;;
  modify (set_sleep_miss_counter (u8 (local_smc - 1))) ;;
  emit (EvConsume local_smc) ;;
  ret local_smc.

Definition doSleep : Prog unit :=
  local_smc <- eat_tick ;;
  if local_smc =? 0 then sleep_mode
  else if DEBUG cfg then
    p <- read PORTB ;;
    write_PORTB (u8 (Z.lor p (_BV P_UNUSED))) ;;
    lock_up
  else ret tt.

(** ** The pulse driver (base.c, lines 136-151) *)

Definition TICK_PIN (last : Z) : Z := if last =? P0 then P1 else P0.

Definition doTick : Prog unit :=
  last <- read lastTick ;;
  p <- read PORTB ;;
  write_PORTB (u8 (Z.lor p (_BV (TICK_PIN last)))) ;;
  _delay_ms TICK_LENGTH ;;
  p <- read PORTB ;;
  write_PORTB (u8 (Z.land p (Z.lnot (_BV (TICK_PIN last))))) ;;
  modify (set_lastTick (TICK_PIN last)) ;;
  doSleep.

(** ** Start-up (base.c, lines 190-224)

    The peripheral set-up touches nothing the model keeps. *)

Definition guard_seed (s : Z) : Z :=
  if (s =? 0) || (Z.land s M =? M) then 0x12345678 else s.

Definition main_init : Prog unit :=
  write_PORTB 0 ;;
  stored <- read ee_seed ;;
  modify (set_seed (s32 stored)) ;;
  s <- read seed ;;
  modify (set_seed (guard_seed s)) ;;
  q_random ;;
  updateSeed ;;
  modify (set_seed_update_timer SEED_UPDATE_INTERVAL) ;;
  modify (set_OCR0A (u8 (CLOCK_BASIC_CYCLE cfg + 1))).

(** ** The lazy clock (lazy.c, lines 30-49)

    One pass through the body of [while(1)]. [r] is what the C library's
    [random()] returned, [seedUpdateAfter] the local of [loop]; the
    result is its new value. *)

(** [unsigned char tick_count = (random() % 30) + 1;] *)
Definition tick_count (r : Z) : Z := u8 (Z.rem r 30 + 1).

Definition loop_iteration (r : Z) (seedUpdateAfter : Z) : Prog Z :=
  let after := u32 (seedUpdateAfter - 1) in
  after' <- (if after =? 0
             then updateSeed ;; ret SEED_UPDATE_INTERVAL
             else ret after) ;;
  for_loop (Z.to_nat (tick_count r)) (doTick ;; doSleep) ;;
  for_loop (Z.to_nat (s16 (tick_count r * 8))) doSleep ;;
  ret after'.

(** The loop over the successive results of [random()]. *)
Fixpoint loop (rs : list Z) (seedUpdateAfter : Z) : Prog Z :=
  match rs with
  | [] => ret seedUpdateAfter
  | r :: rs' => a <- loop_iteration r seedUpdateAfter ;; loop rs' a
  end.

(** ** Sequences of calls from the main context

    What a clock's [loop] does with the infrastructure: a sequence of
    calls of [doTick] and [doSleep]. *)

Inductive Call := CallTick | CallSleep.

Definition call (c : Call) : Prog unit :=
  match c with
  | CallTick => doTick
  | CallSleep => doSleep
  end.

(** What happens between reset and any later moment, seen from the main
    context: its calls, and the interrupts that fire while it is busy
    (those taken during a sleep are part of [sleep_mode]). *)
Inductive Step := Interrupt | Main (c : Call).

Definition step (st : Step) : Prog unit :=
  match st with
  | Interrupt => modify ISR
  | Main c => call c
  end.

Fixpoint steps (l : list Step) : Prog unit :=
  match l with
  | [] => ret tt
  | st :: l' => step st ;; steps l'
  end.

(** No call of [doSleep] can lock up: the build has no DEBUG, or no tick
    is outstanding. *)
Definition calm (s : State) : Prop :=
  DEBUG cfg = false \/ sleep_miss_counter s = 0.

(** ** Producers and consumers of the backlog

    An interleaving of the two contexts as seen from the counter: the
    handler runs ([Produce]) or the main context passes through the
    atomic block of [doSleep] ([Consume]). *)

Inductive Access := Produce | Consume.

Definition access (a : Access) (s : State) : State :=
  match a with
  | Produce => ISR s
  | Consume => final (eat_tick s)
  end.

Fixpoint run (l : list Access) (s : State) : State :=
  match l with
  | [] => s
  | a :: l' => run l' (access a s)
  end.

(** The values saved in [local_smc] by the consumes of an interleaving. *)
Fixpoint snapshots (l : list Access) (s : State) : list Z :=
  match l with
  | [] => []
  | Produce :: l' => snapshots l' (ISR s)
  | Consume :: l' => sleep_miss_counter s :: snapshots l' (final (eat_tick s))
  end.

(** Whether a call of [doSleep] enters [sleep_mode]. *)
Definition sleeps (s : State) : bool :=
  existsb is_sleep (events (doSleep s)).

End Firmware.

(** Events of a seed update: nothing, or one EEPROM write. *)
Definition at_most_a_write (w : list Event) : Prop :=
  w = [] \/ exists v, w = [EvEeWrite v].

Definition is_tick (st : Step) : bool :=
  match st with Main CallTick => true | _ => false end.

(** The port write that signals a lock-up, when a run ends in one. *)
Definition lockup_signal {A} (o : Outcome A) : list Event :=
  if returns o then [] else [EvPort (_BV P_UNUSED)].

(** The port writes and delays of [n] pulses that alternate, the first
    on the pin other than [last]: pin high, 35 ms, pin low. *)
Fixpoint pulse_train (n : nat) (last : Z) : list Event :=
  match n with
  | O => []
  | S n' =>
      EvPort (_BV (TICK_PIN last)) :: EvDelay TICK_LENGTH :: EvPort 0
        :: pulse_train n' (TICK_PIN last)
  end.

(** The coil pins that the successive port writes hold high. *)
Definition driven (evs : list Event) : list Z :=
  flat_map (fun v => (if Z.testbit v P0 then [P0] else [])
                     ++ (if Z.testbit v P1 then [P1] else []))
    (port_values evs).

(** No two neighbours of a list are equal. *)
Fixpoint alternates (l : list Z) : bool :=
  match l with
  | x :: (y :: _) as l' => negb (x =? y) && alternates l'
  | _ => true
  end.

(** Produces minus consumes. *)
Fixpoint surplus (l : list Access) : Z :=
  match l with
  | [] => 0
  | Produce :: l' => surplus l' + 1
  | Consume :: l' => surplus l' - 1
  end.

(** Every prefix of [l], started with [b] ticks outstanding, keeps the
    count of outstanding ticks between [lo] and [hi]. *)
Fixpoint within (lo hi : Z) (b : Z) (l : list Access) : bool :=
  (lo <=? b) && (b <=? hi) &&
  match l with
  | [] => true
  | Produce :: l' => within lo hi (b + 1) l'
  | Consume :: l' => within lo hi (b - 1) l'
  end.

(** Consumes never outnumber produces, in any prefix. *)
Fixpoint never_outnumber (b : Z) (l : list Access) : bool :=
  (0 <=? b) &&
  match l with
  | [] => true
  | Produce :: l' => never_outnumber (b + 1) l'
  | Consume :: l' => never_outnumber (b - 1) l'
  end.

(** ** Observations for the further properties *)

(** A battery change: statics and registers are reset, the EEPROM keeps
    what it holds. *)
Definition power_cycle (s : State) : State :=
  power_on (ee_seed s) (ee_trim s).

(** The stored seed, read back as a [long], is the seed in memory: the
    test of [updateSeed]. *)
Definition synced (s : State) : Prop := s32 (ee_seed s) = seed s.

(** The same build with or without [SW_TRIM]. *)
Definition set_SW_TRIM (b : bool) (cfg : Config) : Config :=
  mkConfig (CLOCK_CYCLES cfg) (CLOCK_BASIC_CYCLE cfg)
    (CLOCK_NUM_LONG_CYCLES cfg) b (DEBUG cfg).

(** Two states that differ at most in the trim accumulator. *)
Definition same_but_trim_pos (s1 s2 : State) : Prop :=
  seed s1 = seed s2 /\ seed_update_timer s1 = seed_update_timer s2 /\
  sleep_miss_counter s1 = sleep_miss_counter s2 /\
  lastTick s1 = lastTick s2 /\ cycle_pos s1 = cycle_pos s2 /\
  PORTB s1 = PORTB s2 /\ OCR0A s1 = OCR0A s2 /\
  ee_seed s1 = ee_seed s2 /\ ee_trim s1 = ee_trim s2.

Section Accumulator.

Variable cfg : Config.

(** The test of the handler's [if (trim_pos < crystal_cycles)]. *)
Definition rolls_over (s : State) : bool :=
  SW_TRIM cfg && (trim_pos s <? OCR0A s).

(** How many of the next [k] interrupts roll the accumulator over. *)
Fixpoint rollovers (k : nat) (s : State) : Z :=
  match k with
  | O => 0
  | S k' => (if rolls_over s then 1 else 0) + rollovers k' (ISR cfg s)
  end.

(** The sum of the values the next [k] interrupts read from OCR0A. *)
Fixpoint compare_sum (k : nat) (s : State) : Z :=
  match k with
  | O => 0
  | S k' => OCR0A s + compare_sum k' (ISR cfg s)
  end.

End Accumulator.

(** The prescalers [main] selects: the timer counts every 64th system
    clock ([TCCR0B = _BV(CS01) | _BV(CS00)]), and the 4 MHz build
    divides the crystal by 128 first ([clock_div_128]). *)
Definition TIMER_PRESCALE : Z := 64.
Definition CLOCK_DIV_FOUR_MHZ : Z := 128.
Definition FOUR_MHZ : Z := 4000000.
Definition THIRTYTWO_KHZ : Z := 32768.

(** What an observer of the clock sees: the port, the delays and the
    sleeps. *)
Definition is_observable (e : Event) : bool :=
  match e with EvPort _ | EvDelay _ | EvSleep => true | _ => false end.

(** [n] pulses on alternating pins, each followed by two sleeps. *)
Fixpoint burst (n : nat) (last : Z) : list Event :=
  match n with
  | O => []
  | S n' =>
      EvPort (_BV (TICK_PIN last)) :: EvDelay TICK_LENGTH :: EvPort 0
        :: EvSleep :: EvSleep :: burst n' (TICK_PIN last)
  end.

(** Whether any event of a list is an EEPROM write. *)
Definition no_eeprom_write (evs : list Event) : Prop := eeprom_writes evs = [].

(** ** Arithmetic of the recurrence *)

Section PrngArith.

Lemma s32_id z : is_s32 z -> s32 z = z.
Proof.
  unfold is_s32, s32. intros H.
  rewrite Z.mod_small by lia. lia.
Qed.

Lemma s32_range z : is_s32 (s32 z).
Proof.
  unfold is_s32, s32.
  pose proof (Z.mod_pos_bound (z + 2 ^ 31) (2 ^ 32) ltac:(lia)). lia.
Qed.

Lemma s32_mod31 z : (s32 z) mod 2 ^ 31 = z mod 2 ^ 31.
Proof.
  unfold s32.
  pose proof (Z.div_mod (z + 2 ^ 31) (2 ^ 32) ltac:(lia)) as E.
  replace ((z + 2 ^ 31) mod 2 ^ 32 - 2 ^ 31)
    with (z + (- 2 * ((z + 2 ^ 31) / 2 ^ 32)) * 2 ^ 31) by lia.
  apply Z.mod_add. lia.
Qed.

Lemma land_M z : Z.land z M = z mod 2 ^ 31.
Proof.
  change M with (Z.ones 31). apply Z.land_ones. lia.
Qed.

(** The masked left shifts keep the low bits of the seed. *)
Lemma shl15_mod seed :
  (Z.shiftl seed 15) mod 2 ^ 31 = (seed mod 2 ^ 16) * 2 ^ 15.
Proof.
  rewrite Z.shiftl_mul_pow2 by lia.
  change (2 ^ 31) with (2 ^ 16 * 2 ^ 15).
  rewrite Z.mul_mod_distr_r by lia. reflexivity.
Qed.

Lemma shl10_mod seed :
  (Z.shiftl seed 10) mod 2 ^ 31 = (seed mod 2 ^ 21) * 2 ^ 10.
Proof.
  rewrite Z.shiftl_mul_pow2 by lia.
  change (2 ^ 31) with (2 ^ 21 * 2 ^ 10).
  rewrite Z.mul_mod_distr_r by lia. reflexivity.
Qed.

Lemma raw_sum_spec seed :
  Z.shiftr seed 16 + (Z.shiftl seed 15) mod 2 ^ 31
  - Z.shiftr seed 21 - (Z.shiftl seed 10) mod 2 ^ 31 = raw_sum seed.
Proof.
  unfold raw_sum.
  rewrite shl15_mod, shl10_mod, !Z.shiftr_div_pow2 by lia. reflexivity.
Qed.

(** The low 21 bits split into the low 16 bits and five more. *)
Lemma split21 seed :
  exists h, 0 <= h < 32 /\
    seed mod 2 ^ 21 = h * 2 ^ 16 + seed mod 2 ^ 16 /\
    seed / 2 ^ 16 = (seed / 2 ^ 21) * 32 + h.
Proof.
  exists ((seed / 2 ^ 16) mod 32).
  pose proof (Z.mod_pos_bound (seed / 2 ^ 16) 32 ltac:(lia)).
  pose proof (Z.div_mod (seed / 2 ^ 16) 32 ltac:(lia)) as E1.
  assert (E2 : seed / 2 ^ 16 / 32 = seed / 2 ^ 21).
  { rewrite Z.div_div by lia. reflexivity. }
  rewrite E2 in E1.
  pose proof (Z.div_mod seed (2 ^ 16) ltac:(lia)) as E3.
  pose proof (Z.div_mod seed (2 ^ 21) ltac:(lia)) as E4.
  pose proof (Z.mod_pos_bound seed (2 ^ 16) ltac:(lia)).
  pose proof (Z.mod_pos_bound seed (2 ^ 21) ltac:(lia)).
  repeat split; lia.
Qed.

(** No intermediate result of the sum leaves the range of [long]. *)
Lemma raw_sum_bounds seed :
  is_s32 seed ->
  let a := (seed mod 2 ^ 16) * 2 ^ 15 in
  let b := (seed mod 2 ^ 21) * 2 ^ 10 in
  is_s32 (seed / 2 ^ 16 + a) /\
  is_s32 (seed / 2 ^ 16 + a - seed / 2 ^ 21) /\
  - (2 ^ 31 - 1) < raw_sum seed < 2 ^ 31 - 1.
Proof.
  unfold is_s32, raw_sum. intros H.
  destruct (split21 seed) as (h & Hh & E21 & E16).
  pose proof (Z.mod_pos_bound seed (2 ^ 16) ltac:(lia)).
  pose proof (Z.div_mod seed (2 ^ 21) ltac:(lia)) as E4.
  pose proof (Z.mod_pos_bound seed (2 ^ 21) ltac:(lia)).
  cbv zeta. rewrite E21, E16. lia.
Qed.

Lemma q_step_raw seed :
  is_s32 seed ->
  q_step seed =
    if raw_sum seed <? 0 then raw_sum seed + M else raw_sum seed.
Proof.
  intros H. unfold q_step.
  rewrite !land_M, !s32_mod31, shl15_mod, shl10_mod, !Z.shiftr_div_pow2 by lia.
  destruct (raw_sum_bounds seed H) as (B1 & B2 & B3).
  cbv zeta in B1, B2.
  rewrite (s32_id _ B1), (s32_id _ B2).
  fold (raw_sum seed).
  rewrite (s32_id (raw_sum seed)) by (unfold is_s32; lia).
  destruct (raw_sum seed <? 0) eqn:E; [|reflexivity].
  apply Z.ltb_lt in E. apply s32_id. unfold is_s32, M. lia.
Qed.

Lemma q_step_range seed : is_s32 seed -> 0 <= q_step seed < 2 ^ 31 - 1.
Proof.
  intros H. rewrite (q_step_raw seed H).
  destruct (raw_sum_bounds seed H) as (_ & _ & B3).
  destruct (raw_sum seed <? 0) eqn:E;
    [apply Z.ltb_lt in E | apply Z.ltb_ge in E]; unfold M; lia.
Qed.

End PrngArith.

(** ** The generator is multiplication by 31744 modulo 2^31 - 1 *)

Section PrngCongruence.

Lemma raw_sum_congr seed :
  raw_sum seed = 31744 * seed - (seed / 2 ^ 16 - seed / 2 ^ 21) * M.
Proof.
  unfold raw_sum, M.
  pose proof (Z.div_mod seed (2 ^ 16) ltac:(lia)) as E3.
  pose proof (Z.div_mod seed (2 ^ 21) ltac:(lia)) as E4.
  lia.
Qed.

Lemma q_step_congr seed :
  is_s32 seed -> exists k, q_step seed = 31744 * seed + k * M.
Proof.
  intros H. rewrite (q_step_raw seed H), raw_sum_congr.
  destruct (_ <? 0).
  - exists (1 - (seed / 2 ^ 16 - seed / 2 ^ 21)). lia.
  - exists (- (seed / 2 ^ 16 - seed / 2 ^ 21)). lia.
Qed.

Lemma M_coprime_31744 : Z.gcd M 31744 = 1.
Proof. reflexivity. Qed.

Lemma M_coprime_31743 : Z.gcd M 31743 = 1.
Proof. reflexivity. Qed.

Lemma no_multiple_below_M x : 0 < x < M -> ~ (M | x).
Proof.
  intros H [c E]. unfold M in *.
  assert (c <= 0 \/ 1 <= c) as [C | C] by lia; nia.
Qed.

(** On the seeds 1 .. M-1 the generator has no fixed point and never
    reaches a degenerate value. *)
Lemma q_step_nondegenerate seed :
  0 < seed < M -> 0 < q_step seed < M /\ q_step seed <> seed.
Proof.
  intros H.
  assert (Hs : is_s32 seed) by (unfold is_s32, M in *; lia).
  pose proof (q_step_range seed Hs) as R.
  destruct (q_step_congr seed Hs) as [k E].
  split; [split|].
  - assert (q_step seed <> 0); [|lia].
    intros Z0. apply (no_multiple_below_M seed H).
    apply (Z.gauss M 31744); [|exact M_coprime_31744].
    exists (- k). lia.
  - unfold M. lia.
  - intros Fix. apply (no_multiple_below_M seed H).
    apply (Z.gauss M 31743); [|exact M_coprime_31743].
    exists (- k). lia.
Qed.

Lemma q_step_zero : q_step 0 = 0.
Proof. reflexivity. Qed.

Lemma low31_ones z :
  is_s32 z -> Z.land z M = M -> z = M \/ z = -1.
Proof.
  unfold is_s32. rewrite land_M. unfold M. intros H E.
  pose proof (Z.div_mod z (2 ^ 31) ltac:(lia)). lia.
Qed.

Lemma guard_seed_cases z :
  is_s32 z ->
  (guard_seed z = 0x12345678 /\ (z = 0 \/ z = M \/ z = -1)) \/
  (guard_seed z = z /\ z <> 0 /\ z <> M /\ z <> -1).
Proof.
  intros H. unfold guard_seed.
  destruct (Z.eqb_spec z 0) as [E0 | N0]; cbn [orb].
  - left. auto.
  - destruct (Z.eqb_spec (Z.land z M) M) as [E1 | N1].
    + left. destruct (low31_ones z H E1); auto.
    + right. repeat split; auto; intros ->; apply N1; reflexivity.
Qed.

Lemma guard_seed_range z : is_s32 z -> is_s32 (guard_seed z).
Proof.
  intros H. destruct (guard_seed_cases z H) as [[-> _] | [-> _]]; auto.
  unfold is_s32. lia.
Qed.

(** The seed after the guard and one step never equals the [long] it
    was read from. *)
Lemma perturbed_differs z :
  is_s32 z -> q_step (guard_seed z) <> z.
Proof.
  intros H.
  destruct (guard_seed_cases z H) as [[-> C] | (-> & N0 & NM & N1)].
  - change (q_step 305419896) with 1507996066.
    unfold M in C. lia.
  - pose proof (q_step_range z H).
    assert (z < 0 \/ 0 < z < M) as [Neg | Pos]
      by (unfold is_s32, M in *; lia).
    + lia.
    + apply q_step_nondegenerate. exact Pos.
Qed.

Lemma u32_small z : 0 <= z < 2 ^ 32 -> u32 z = z.
Proof. intros H. apply Z.mod_small. exact H. Qed.

End PrngCongruence.

(** ** The seed store *)

Arguments q_step : simpl never.
Arguments guard_seed : simpl never.
Arguments s32 : simpl never.
Arguments s16 : simpl never.
Arguments u32 : simpl never.
Arguments u8 : simpl never.

Section SeedStore.

Variable cfg : Config.

Lemma q_random_eq s :
  q_random s = Done (u32 (q_step (seed s))) (set_seed (q_step (seed s)) s) [].
Proof. reflexivity. Qed.

(** [main_init] in one piece: the write happens when the stored dword,
    read as a [long], differs from the perturbed seed. *)
Lemma main_init_eq s :
  let q := q_step (guard_seed (s32 (ee_seed s))) in
  let s1 :=
    mkState q SEED_UPDATE_INTERVAL (sleep_miss_counter s) (lastTick s)
      (cycle_pos s) (trim_pos s) 0 (u8 (CLOCK_BASIC_CYCLE cfg + 1))
      (if s32 (ee_seed s) =? q then ee_seed s else u32 q) (ee_trim s) in
  main_init cfg s =
    Done tt s1
      (EvPort 0 :: if s32 (ee_seed s) =? q then [] else [EvEeWrite (u32 q)]).
Proof.
  unfold main_init, q_random, updateSeed, write_PORTB, bind, read, modify,
    emit, ret.
  simpl.
  destruct (s32 (ee_seed s) =? q_step (guard_seed (s32 (ee_seed s))));
    reflexivity.
Qed.

Lemma next_spec_raw seed :
  next_spec seed =
    if raw_sum seed <? 0 then raw_sum seed + M else raw_sum seed.
Proof. unfold next_spec. rewrite raw_sum_spec. reflexivity. Qed.

Lemma q_step_spec seed : is_s32 seed -> q_step seed = next_spec seed.
Proof.
  intros H. rewrite next_spec_raw. apply q_step_raw. exact H.
Qed.

Lemma q_step_s32 seed : is_s32 seed -> is_s32 (q_step seed).
Proof.
  intros H. pose proof (q_step_range seed H). unfold is_s32. lia.
Qed.

Lemma outputs_spec n : forall seed,
  is_s32 seed -> outputs q_step n seed = outputs next_spec n seed.
Proof.
  induction n as [|n IH]; intros seed H; [reflexivity|].
  cbn [outputs]. rewrite <- (q_step_spec seed H).
  rewrite (IH (q_step seed) (q_step_s32 seed H)). reflexivity.
Qed.

(** C3. For every value of the 32-bit seed, [q_random] stores and
    returns exactly (seed>>16) + ((seed<<15) mod 2^31) - (seed>>21)
    - ((seed<<10) mod 2^31), plus 2^31-1 when that is negative; and the
    whole output sequence from a seed is the one the recurrence gives. *)
Theorem q_random_matches_recurrence (s : State) :
  is_s32 (seed s) ->
  q_random s = Done (next_spec (seed s)) (set_seed (next_spec (seed s)) s) []
  /\ forall n, outputs q_step n (seed s) = outputs next_spec n (seed s).
Proof.
  intros H. split.
  - rewrite q_random_eq, (q_step_spec _ H).
    rewrite u32_small; [reflexivity|].
    rewrite <- (q_step_spec _ H).
    pose proof (q_step_range _ H). lia.
  - intros n. apply outputs_spec. exact H.
Qed.

Lemma q_random_matches_recurrence_witness :
  let s := set_seed 0x12345678 (power_on 0 0) in
  q_random s = Done (next_spec (seed s)) (set_seed (next_spec (seed s)) s) []
  /\ forall n, outputs q_step n (seed s) = outputs next_spec n (seed s).
Proof.
  apply (q_random_matches_recurrence (set_seed 0x12345678 (power_on 0 0))).
  unfold is_s32. simpl. lia.
Defined.

(** C5. Whatever dword the EEPROM holds at start-up, [main] advances the
    generator once from the guarded seed, performs exactly one EEPROM
    write, of the new seed, and leaves a stored seed different from the
    one it read. *)
Theorem init_persists_fresh_seed (s : State) :
  is_u32 (ee_seed s) ->
  let o := main_init cfg s in
  returns o = true /\
  seed (final o) = q_step (guard_seed (s32 (ee_seed s))) /\
  eeprom_writes (events o) = [seed (final o)] /\
  ee_seed (final o) = seed (final o) /\
  ee_seed (final o) <> ee_seed s.
Proof.
  intros H. cbv zeta. rewrite main_init_eq. cbv zeta.
  set (z := s32 (ee_seed s)).
  assert (Hz : is_s32 z) by apply s32_range.
  pose proof (perturbed_differs z Hz) as D.
  pose proof (q_step_range _ (guard_seed_range z Hz)) as R.
  destruct (Z.eqb_spec z (q_step (guard_seed z))) as [E | _]; [congruence|].
  cbn [returns final events seed ee_seed eeprom_writes flat_map app].
  rewrite u32_small by lia.
  repeat split.
  intros E. apply D. subst z. rewrite E.
  symmetry. apply s32_id. unfold is_s32. lia.
Qed.

(** The step reaches 0 only from a multiple of M. *)
Lemma q_step_zero_only z :
  is_s32 z -> q_step z = 0 -> z = 0 \/ z = M \/ z = - M.
Proof.
  intros H E. destruct (q_step_congr z H) as [k K].
  assert (D : (M | z)).
  { apply (Z.gauss M 31744); [|exact M_coprime_31744]. exists (- k). lia. }
  destruct D as [c ->]. unfold is_s32, M in *.
  assert (c = 0 \/ c = 1 \/ c = -1) as [-> | [-> | ->]] by lia; lia.
Qed.

(** Start-up establishes 0 < seed < M from every stored dword but one. *)
Lemma init_seed_nondegenerate s :
  is_u32 (ee_seed s) -> ee_seed s <> 0x80000001 ->
  0 < seed (final (main_init cfg s)) < M.
Proof.
  intros H N. rewrite main_init_eq. cbv zeta. cbn [final seed].
  set (z := s32 (ee_seed s)).
  assert (Hz : is_s32 z) by apply s32_range.
  pose proof (q_step_range _ (guard_seed_range z Hz)) as R.
  assert (q_step (guard_seed z) <> 0); [|unfold M; lia].
  destruct (guard_seed_cases z Hz) as [[-> _] | (-> & N0 & NM & N1)].
  - discriminate.
  - intros E. destruct (q_step_zero_only z Hz E) as [? | [? | E']];
      try contradiction.
    apply N. subst z. unfold s32, M, is_u32 in *.
    pose proof (Z.div_mod (ee_seed s + 2 ^ 31) (2 ^ 32) ltac:(lia)).
    pose proof (Z.mod_pos_bound (ee_seed s + 2 ^ 31) (2 ^ 32) ltac:(lia)).
    assert ((ee_seed s + 2 ^ 31) / 2 ^ 32 = 0
            \/ (ee_seed s + 2 ^ 31) / 2 ^ 32 = 1) as [Q | Q]; lia.
Qed.

(** C7. The stored dword 0x80000001 passes the guard of [main] (it is
    neither 0 nor all ones in its low 31 bits), and the one generator
    step of start-up takes it to 0: [main] leaves the seed at the
    degenerate value 0, where every later step keeps it. *)
Theorem init_can_leave_seed_zero (t : Z) :
  let o := main_init cfg (power_on 0x80000001 t) in
  guard_seed (s32 0x80000001) = - 2147483647 /\
  returns o = true /\
  seed (final o) = 0 /\
  forall n, outputs q_step n (seed (final o)) = repeat 0 n.
Proof.
  cbv zeta. rewrite main_init_eq. cbv zeta.
  change (ee_seed (power_on 2147483649 t)) with 2147483649.
  change (q_step (guard_seed (s32 2147483649))) with 0.
  repeat split.
  cbn [final seed]. intros n.
  induction n as [|n IH]; [reflexivity|].
  cbn [outputs repeat]. rewrite q_step_zero, IH. reflexivity.
Qed.

(** C8. A stored seed of 0, and likewise a stored seed of 0x7FFFFFFF, is
    replaced by 0x12345678 before the generator runs: the seed after
    start-up is one step from 0x12345678. *)
Theorem guard_replaces_zero_and_max (t : Z) :
  guard_seed (s32 0) = 0x12345678 /\
  guard_seed (s32 M) = 0x12345678 /\
  seed (final (main_init cfg (power_on 0 t))) = q_step 0x12345678 /\
  seed (final (main_init cfg (power_on M t))) = q_step 0x12345678.
Proof.
  rewrite !main_init_eq. repeat split.
Qed.

(** C10. Every stored dword whose low 31 bits are all ones is replaced
    by 0x12345678 before the generator runs; 0xFFFFFFFF, the erased
    EEPROM, is one of them and reads back as -1. *)
Theorem guard_replaces_low31_ones (e t : Z) :
  is_u32 e ->
  Z.land e M = M ->
  guard_seed (s32 e) = 0x12345678 /\
  seed (final (main_init cfg (power_on e t))) = q_step 0x12345678 /\
  s32 0xFFFFFFFF = -1 /\ Z.land 0xFFFFFFFF M = M.
Proof.
  intros H L.
  assert (G : guard_seed (s32 e) = 0x12345678).
  { unfold guard_seed.
    replace (Z.land (s32 e) M) with M.
    - rewrite Z.eqb_refl, orb_true_r. reflexivity.
    - rewrite land_M, s32_mod31, <- land_M. symmetry. exact L. }
  rewrite main_init_eq. cbv zeta. cbn [final seed ee_seed power_on].
  rewrite G. repeat split.
Qed.

End SeedStore.

Lemma init_persists_fresh_seed_witness :
  let s := power_on 0xFFFFFFFF 0 in
  let o := main_init (FOUR_MHZ_CLOCK false false) s in
  returns o = true /\
  seed (final o) = q_step (guard_seed (s32 (ee_seed s))) /\
  eeprom_writes (events o) = [seed (final o)] /\
  ee_seed (final o) = seed (final o) /\
  ee_seed (final o) <> ee_seed s.
Proof.
  apply (init_persists_fresh_seed (FOUR_MHZ_CLOCK false false)
           (power_on 0xFFFFFFFF 0)).
  unfold is_u32. simpl. lia.
Defined.

Lemma guard_replaces_low31_ones_witness :
  guard_seed (s32 0xFFFFFFFF) = 0x12345678 /\
  seed (final (main_init (THIRTYTWO_KHZ_CLOCK false false)
                 (power_on 0xFFFFFFFF 7))) = q_step 0x12345678 /\
  s32 0xFFFFFFFF = -1 /\ Z.land 0xFFFFFFFF M = M.
Proof.
  apply (guard_replaces_low31_ones (THIRTYTWO_KHZ_CLOCK false false)
           0xFFFFFFFF 7).
  - unfold is_u32. simpl. lia.
  - reflexivity.
Defined.

(** ** The tick generator *)

Section TickGenerator.

Lemma interrupts_S cfg k : forall s,
  interrupts cfg (S k) s = ISR cfg (interrupts cfg k s).
Proof.
  induction k as [|k IH]; intros s; [reflexivity|].
  change (interrupts cfg (S (S k)) s) with (interrupts cfg (S k) (ISR cfg s)).
  rewrite IH. reflexivity.
Qed.

Lemma interrupts_add cfg a : forall b s,
  interrupts cfg (a + b) s = interrupts cfg b (interrupts cfg a s).
Proof.
  induction a as [|a IH]; intros b s; [reflexivity|].
  cbn [Nat.add interrupts]. apply IH.
Qed.

Lemma elapsed_snoc cfg k : forall s,
  elapsed cfg (S k) s = elapsed cfg k s + interval (interrupts cfg k s).
Proof.
  induction k as [|k IH]; intros s.
  - cbn [elapsed interrupts]. lia.
  - change (elapsed cfg (S (S k)) s)
      with (interval s + elapsed cfg (S k) (ISR cfg s)).
    rewrite IH. cbn [elapsed interrupts]. lia.
Qed.

(** An interrupt that brings [cycle_pos] to neither of the two marks
    leaves the compare target as it was, whatever offset it fetched. *)
Lemma ISR_keeps_target cfg s :
  u8 (cycle_pos s + 1) <> CLOCK_NUM_LONG_CYCLES cfg ->
  u8 (cycle_pos s + 1) < CLOCK_CYCLES cfg ->
  OCR0A (ISR cfg s) = OCR0A s.
Proof.
  intros N L. unfold ISR.
  destruct (Z.eqb_spec (u8 (cycle_pos s + 1)) (CLOCK_NUM_LONG_CYCLES cfg));
    [contradiction|].
  destruct (Z.geb_spec (u8 (cycle_pos s + 1)) (CLOCK_CYCLES cfg)); [lia|].
  repeat match goal with
         | |- context [if ?b then _ else _] => destruct b
         end; reflexivity.
Qed.

Variable dbg : bool.

(** One interrupt of the 4 MHz build without trim, on the divider. *)
Lemma ISR_divider s :
  0 <= cycle_pos s < 64 ->
  OCR0A s = (if cycle_pos s <? 53 then 48 else 47) ->
  let s' := ISR (FOUR_MHZ_CLOCK false dbg) s in
  cycle_pos s' = (cycle_pos s + 1) mod 64 /\
  OCR0A s' = (if (cycle_pos s + 1) mod 64 <? 53 then 48 else 47).
Proof.
  intros R O. unfold ISR.
  cbn [FOUR_MHZ_CLOCK SW_TRIM CLOCK_CYCLES CLOCK_BASIC_CYCLE
       CLOCK_NUM_LONG_CYCLES].
  assert (U : u8 (cycle_pos s + 1) = cycle_pos s + 1)
    by (apply Z.mod_small; lia).
  rewrite U.
  assert (cycle_pos s = 63 \/ cycle_pos s < 63) as [E | L] by lia.
  - rewrite E. cbv zeta. repeat split.
  - rewrite (Z.mod_small (cycle_pos s + 1)) by lia.
    destruct (Z.eqb_spec (cycle_pos s + 1) 53) as [E53 | N53];
      destruct (Z.geb_spec (cycle_pos s + 1) 64) as [G | G]; try lia;
      cbv zeta; cbn [cycle_pos OCR0A]; split; try reflexivity.
    + rewrite E53. reflexivity.
    + rewrite O.
      destruct (Z.ltb_spec (cycle_pos s) 53), (Z.ltb_spec (cycle_pos s + 1) 53);
        try reflexivity; lia.
Qed.

Lemma divider_invariant k s :
  cycle_pos s = 0 -> OCR0A s = 48 ->
  let sk := interrupts (FOUR_MHZ_CLOCK false dbg) k s in
  cycle_pos sk = Z.of_nat k mod 64 /\
  OCR0A sk = (if Z.of_nat k mod 64 <? 53 then 48 else 47).
Proof.
  intros C O. cbv zeta. induction k as [|k [IHc IHo]].
  - cbn [interrupts Z.of_nat]. rewrite C, O. split; reflexivity.
  - rewrite interrupts_S.
    pose proof (Z.mod_pos_bound (Z.of_nat k) 64 ltac:(lia)) as B.
    rewrite <- IHc in B, IHo.
    destruct (ISR_divider _ B IHo) as [Hc Ho].
    rewrite Hc, Ho, IHc, Nat2Z.inj_succ, Z.add_mod_idemp_l by lia.
    split; reflexivity.
Qed.

Lemma elapsed_first_window s :
  cycle_pos s = 0 -> OCR0A s = 48 ->
  elapsed (FOUR_MHZ_CLOCK false dbg) 64 s = 3125.
Proof.
  destruct s. cbn [cycle_pos OCR0A]. intros -> ->. vm_compute. reflexivity.
Qed.

Lemma elapsed_any_window k s :
  cycle_pos s = 0 -> OCR0A s = 48 ->
  elapsed (FOUR_MHZ_CLOCK false dbg) 64
    (interrupts (FOUR_MHZ_CLOCK false dbg) k s) = 3125.
Proof.
  intros C O. induction k as [|k IH].
  - apply elapsed_first_window; assumption.
  - set (cfg := FOUR_MHZ_CLOCK false dbg) in *.
    pose proof (elapsed_snoc cfg 64 (interrupts cfg k s)) as E.
    change (elapsed cfg 65 (interrupts cfg k s))
      with (interval (interrupts cfg k s)
            + elapsed cfg 64 (ISR cfg (interrupts cfg k s))) in E.
    rewrite <- interrupts_S, <- interrupts_add in E.
    destruct (divider_invariant k s C O) as [_ O1].
    destruct (divider_invariant (k + 64) s C O) as [_ O2].
    fold cfg in O1, O2.
    replace (Z.of_nat (k + 64) mod 64) with (Z.of_nat k mod 64) in O2.
    + unfold interval in E. rewrite O1, O2 in E. lia.
    + rewrite Nat2Z.inj_add.
      change (Z.of_nat 64) with (1 * 64).
      rewrite Z.mod_add by lia. reflexivity.
Qed.

(** C2. In the 4 MHz build, after any number [k] of interrupts the
    compare value in effect for the next one, number [k mod 64 + 1] of
    its cycle, is 48 when that number is at most 53 and 47 when it is 54
    to 64; and the 64 intervals from there on last 3125 timer clocks. *)
Theorem divider_exact_4mhz (s : State) (k : nat) :
  cycle_pos s = 0 -> OCR0A s = 48 ->
  let cfg := FOUR_MHZ_CLOCK false dbg in
  let sk := interrupts cfg k s in
  let i := Z.of_nat k mod 64 + 1 in
  1 <= i <= 64 /\
  OCR0A sk = (if i <=? 53 then 48 else 47) /\
  elapsed cfg 64 sk = 3125.
Proof.
  intros C O. cbv zeta.
  pose proof (Z.mod_pos_bound (Z.of_nat k) 64 ltac:(lia)) as B.
  destruct (divider_invariant k s C O) as [_ Ho].
  split; [lia|]. split.
  - rewrite Ho.
    destruct (Z.ltb_spec (Z.of_nat k mod 64) 53),
             (Z.leb_spec (Z.of_nat k mod 64 + 1) 53); try reflexivity; lia.
  - apply elapsed_any_window; assumption.
Qed.

(** C6. With software trim and a stored trim of 1, the first interrupt
    after start-up rolls the accumulator over and fetches the offset.
    In the 4 MHz build no compare target receives it: the targets of
    the next 128 interrupts are those of a build without trim.  In the
    32 kHz build the target becomes 51 and stays there for the four
    intervals that follow, instead of 50. *)
Theorem trim_offset_misapplied :
  let fast := FOUR_MHZ_CLOCK true dbg in
  let slow := THIRTYTWO_KHZ_CLOCK true dbg in
  let f0 := final (main_init fast (power_on 0 1)) in
  let w0 := final (main_init slow (power_on 0 1)) in
  (trim_pos f0 = 0 /\ trim_pos (ISR fast f0) = 10000000 - 48 /\
   map (fun k => OCR0A (interrupts fast k f0)) (seq 0 129) =
   map (fun k => OCR0A (interrupts (FOUR_MHZ_CLOCK false dbg) k f0))
     (seq 0 129)) /\
  (trim_pos w0 = 0 /\ trim_pos (ISR slow w0) = 10000000 - 51 /\
   map (fun k => OCR0A (interrupts slow k w0)) (seq 0 7) =
     [51; 51; 51; 51; 51; 51; 50] /\
   map (fun k => OCR0A (interrupts (THIRTYTWO_KHZ_CLOCK false dbg) k w0))
     (seq 0 7) = [51; 50; 50; 50; 50; 51; 50]).
Proof.
  destruct dbg; vm_compute; repeat split.
Qed.

End TickGenerator.

Lemma divider_exact_4mhz_witness :
  let cfg := FOUR_MHZ_CLOCK false false in
  let sk := interrupts cfg 117 (final (main_init cfg (power_on 0 0))) in
  let i := Z.of_nat 117 mod 64 + 1 in
  1 <= i <= 64 /\
  OCR0A sk = (if i <=? 53 then 48 else 47) /\
  elapsed cfg 64 sk = 3125.
Proof.
  apply (divider_exact_4mhz false
           (final (main_init (FOUR_MHZ_CLOCK false false) (power_on 0 0))) 117);
    reflexivity.
Defined.

(** ** Running the main context *)

Section MainContext.

Variable cfg : Config.

Lemma updateSeed_spec s :
  exists e' w,
    updateSeed s = Done tt (set_ee_seed e' s) w /\ at_most_a_write w.
Proof.
  unfold updateSeed, bind, read, modify, emit, ret.
  destruct (s32 (ee_seed s) =? seed s).
  - exists (ee_seed s), []. split; [destruct s; reflexivity|].
    left; reflexivity.
  - eexists _, _. split; [reflexivity|]. right; eexists; reflexivity.
Qed.

(** The countdown and the atomic block: the counter goes down by one,
    modulo 256, and only the seed-update timer and the stored seed can
    change besides. *)
Lemma eat_tick_spec s :
  exists e' t' w,
    eat_tick s =
      Done (sleep_miss_counter s)
        (set_sleep_miss_counter (u8 (sleep_miss_counter s - 1))
           (set_seed_update_timer t' (set_ee_seed e' s)))
        (w ++ [EvConsume (sleep_miss_counter s)]) /\
    at_most_a_write w.
Proof.
  unfold eat_tick.
  unfold bind at 1 2. unfold read at 1. unfold modify at 1.
  unfold bind at 1.
  destruct (u32 (seed_update_timer s - 1) =? 0).
  - unfold bind at 1.
    destruct (updateSeed_spec
                (set_seed_update_timer (u32 (seed_update_timer s - 1)) s))
      as (e' & w & E & W).
    rewrite E. unfold bind, read, modify, emit, ret.
    exists e', SEED_UPDATE_INTERVAL, w.
    split; [rewrite !app_nil_r, !app_nil_l; destruct s; reflexivity|].
    exact W.
  - unfold bind, read, modify, emit, ret.
    exists (ee_seed s), (u32 (seed_update_timer s - 1)), [].
    split; [destruct s; reflexivity|]. left; reflexivity.
Qed.

(** The handler leaves alone what the main context owns, and counts one
    more tick. *)
Lemma ISR_frame s :
  seed (ISR cfg s) = seed s /\ lastTick (ISR cfg s) = lastTick s /\
  PORTB (ISR cfg s) = PORTB s /\
  sleep_miss_counter (ISR cfg s) = u8 (sleep_miss_counter s + 1).
Proof.
  unfold ISR.
  repeat match goal with
         | |- context [if ?b then _ else _] => destruct b
         end; repeat split.
Qed.

Lemma quiet_no_sleep w : at_most_a_write w -> existsb is_sleep w = false.
Proof. intros [-> | [v ->]]; reflexivity. Qed.

Lemma quiet_no_pin_event w :
  at_most_a_write w -> filter is_pin_event w = [].
Proof. intros [-> | [v ->]]; reflexivity. Qed.

Lemma quiet_counts w :
  at_most_a_write w -> ticks_consumed w = 0%nat /\ pulses w = 0%nat.
Proof. intros [-> | [v ->]]; split; reflexivity. Qed.

Lemma ticks_consumed_app a b :
  ticks_consumed (a ++ b) = (ticks_consumed a + ticks_consumed b)%nat.
Proof. unfold ticks_consumed. rewrite filter_app, length_app. reflexivity. Qed.

Lemma pulses_app a b : pulses (a ++ b) = (pulses a + pulses b)%nat.
Proof. unfold pulses. rewrite filter_app, length_app. reflexivity. Qed.

(** [doSleep] enters [sleep_mode] exactly when the saved counter is 0. *)
Lemma sleeps_iff_zero s :
  sleeps cfg s = (sleep_miss_counter s =? 0).
Proof.
  unfold sleeps, doSleep. unfold bind at 1.
  destruct (eat_tick_spec s) as (e' & t' & w & E & W). rewrite E.
  destruct (sleep_miss_counter s =? 0).
  - unfold sleep_mode, bind, emit, modify. cbn [events].
    rewrite !existsb_app. cbn. rewrite !orb_true_r. reflexivity.
  - destruct (DEBUG cfg);
      unfold write_PORTB, lock_up, bind, read, emit, modify, ret;
      cbn [events]; rewrite !existsb_app, (quiet_no_sleep w W); reflexivity.
Qed.

Lemma calm_or_not s :
  calm cfg s \/ (DEBUG cfg = true /\ sleep_miss_counter s <> 0).
Proof.
  unfold calm. destruct (DEBUG cfg); [|left; left; reflexivity].
  destruct (Z.eq_dec (sleep_miss_counter s) 0); [left | right]; auto.
Qed.

(** A call of [doSleep] that cannot lock up returns after one consume
    and no pin event; it leaves the main context's variables alone. *)
Lemma doSleep_returns s :
  calm cfg s ->
  exists s' evs,
    doSleep cfg s = Done tt s' evs /\ calm cfg s' /\
    seed s' = seed s /\ lastTick s' = lastTick s /\ PORTB s' = PORTB s /\
    filter is_pin_event evs = [] /\
    ticks_consumed evs = 1%nat /\ pulses evs = 0%nat.
Proof.
  intros C. unfold doSleep. unfold bind at 1.
  destruct (eat_tick_spec s) as (e' & t' & w & E & W). rewrite E.
  destruct (quiet_counts w W) as [Cw Dw].
  destruct (Z.eqb_spec (sleep_miss_counter s) 0) as [Z0 | NZ].
  - unfold sleep_mode, bind, emit, modify.
    eexists _, _. split; [reflexivity|].
    match goal with |- context [ISR cfg ?x] =>
      destruct (ISR_frame x) as (F1 & F2 & F3 & F4) end.
    rewrite F1, F2, F3, !filter_app, !ticks_consumed_app, !pulses_app,
      (quiet_no_pin_event w W), Cw, Dw.
    repeat split. right. rewrite F4. cbn [sleep_miss_counter
      set_sleep_miss_counter]. rewrite Z0. reflexivity.
  - destruct C as [D | Z0]; [|contradiction]. rewrite D. unfold ret.
    eexists _, _. split; [reflexivity|].
    rewrite !filter_app, !ticks_consumed_app, !pulses_app,
      (quiet_no_pin_event w W), Cw, Dw.
    repeat split. left. exact D.
Qed.

(** With DEBUG and a tick outstanding the call raises the spare pin and
    never returns. *)
Lemma doSleep_locks s :
  DEBUG cfg = true -> sleep_miss_counter s <> 0 ->
  exists s' evs,
    doSleep cfg s = Locked s' evs /\
    filter is_pin_event evs
      = [EvPort (u8 (Z.lor (PORTB s) (_BV P_UNUSED)))] /\
    pulses evs = 0%nat.
Proof.
  intros D NZ. unfold doSleep. unfold bind at 1.
  destruct (eat_tick_spec s) as (e' & t' & w & E & W). rewrite E.
  destruct (quiet_counts w W) as [Cw Dw].
  destruct (Z.eqb_spec (sleep_miss_counter s) 0) as [Z0 | _];
    [contradiction|].
  rewrite D. unfold write_PORTB, lock_up, bind, read, emit, modify.
  eexists _, _. split; [reflexivity|].
  rewrite !filter_app, !pulses_app, (quiet_no_pin_event w W), Dw.
  split; reflexivity.
Qed.

Lemma TICK_PIN_cases last :
  (TICK_PIN last = P1 /\ _BV (TICK_PIN last) = 2) \/
  (TICK_PIN last = P0 /\ _BV (TICK_PIN last) = 1).
Proof.
  unfold TICK_PIN. destruct (last =? P0); [left | right]; split; reflexivity.
Qed.

Lemma TICK_PIN_flips last :
  (TICK_PIN last =? TICK_PIN (TICK_PIN last)) = false.
Proof.
  unfold TICK_PIN. destruct (last =? P0); reflexivity.
Qed.

(** [doTick] is three pin events, the update of [lastTick], and
    [doSleep]. *)
Lemma doTick_eq s :
  let pin := TICK_PIN (lastTick s) in
  let v1 := u8 (Z.lor (PORTB s) (_BV pin)) in
  let v2 := u8 (Z.land v1 (Z.lnot (_BV pin))) in
  let mid := set_lastTick pin (set_PORTB v2 (set_PORTB v1 s)) in
  let pre := [EvPort v1; EvDelay TICK_LENGTH; EvPort v2] in
  doTick cfg s =
    match doSleep cfg mid with
    | Done a s' e => Done a s' (pre ++ e)
    | Locked s' e => Locked s' (pre ++ e)
    end.
Proof.
  cbv zeta. unfold doTick.
  unfold bind at 1 2 3 4 5 6 7.
  unfold read, write_PORTB, _delay_ms, bind, modify, emit.
  cbn [PORTB set_PORTB lastTick].
  destruct (doSleep cfg _); reflexivity.
Qed.

Lemma pulse_on_low_port last :
  let pin := TICK_PIN last in
  u8 (Z.lor 0 (_BV pin)) = _BV pin /\
  u8 (Z.land (_BV pin) (Z.lnot (_BV pin))) = 0.
Proof.
  cbv zeta.
  destruct (TICK_PIN_cases last) as [[_ ->] | [_ ->]]; split; reflexivity.
Qed.

(** A call of [doTick] that cannot lock up makes one pulse and one
    consume. *)
Lemma doTick_returns s :
  calm cfg s ->
  exists s' evs,
    doTick cfg s = Done tt s' evs /\ calm cfg s' /\
    seed s' = seed s /\ lastTick s' = TICK_PIN (lastTick s) /\
    (PORTB s = 0 ->
       PORTB s' = 0 /\
       filter is_pin_event evs = pulse_train 1 (lastTick s)) /\
    ticks_consumed evs = 1%nat /\ pulses evs = 1%nat.
Proof.
  intros C. rewrite doTick_eq. cbv zeta.
  match goal with |- context [doSleep cfg ?x] =>
    destruct (doSleep_returns x) as (s' & e & E & C' & F1 & F2 & F3 & T & N & D);
      [exact C|]; rewrite E end.
  eexists _, _. split; [reflexivity|].
  split; [exact C'|].
  rewrite F1, F2, F3.
  rewrite ticks_consumed_app, pulses_app, N, D.
  split; [reflexivity|]. split; [reflexivity|].
  split; [|split; reflexivity].
  intros P. cbn [PORTB set_PORTB set_lastTick filter is_pin_event app].
  rewrite T, P.
  destruct (pulse_on_low_port (lastTick s)) as [-> ->].
  split; reflexivity.
Qed.

Lemma doTick_locks s :
  DEBUG cfg = true -> sleep_miss_counter s <> 0 -> PORTB s = 0 ->
  exists s' evs,
    doTick cfg s = Locked s' evs /\
    filter is_pin_event evs
      = pulse_train 1 (lastTick s) ++ [EvPort (_BV P_UNUSED)] /\
    pulses evs = 1%nat.
Proof.
  intros D NZ P. rewrite doTick_eq. cbv zeta.
  match goal with |- context [doSleep cfg ?x] =>
    destruct (doSleep_locks x D NZ) as (s' & e & E & T & N); rewrite E end.
  eexists _, _. split; [reflexivity|].
  rewrite pulses_app, N. split; [|reflexivity].
  cbn [filter is_pin_event app]. rewrite T, P.
  destruct (pulse_on_low_port (lastTick s)) as [-> ->]. reflexivity.
Qed.

End MainContext.

(** ** The backlog counter *)

Section Backlog.

Variable cfg : Config.

Lemma consume_counter s :
  sleep_miss_counter (final (eat_tick s)) = u8 (sleep_miss_counter s - 1).
Proof.
  destruct (eat_tick_spec s) as (e' & t' & w & E & _). rewrite E.
  reflexivity.
Qed.

Lemma produce_counter s :
  sleep_miss_counter (ISR cfg s) = u8 (sleep_miss_counter s + 1).
Proof. apply ISR_frame. Qed.

Lemma within_head lo hi b l :
  within lo hi b l = true -> lo <= b <= hi.
Proof.
  destruct l as [|[|] l]; cbn [within];
    rewrite !andb_true_iff, !Z.leb_le; tauto.
Qed.

(** While the ticks outstanding stay between 0 and 255 the counter is
    their exact number, and every consume finds it positive. *)
Lemma counter_tracks_surplus l : forall s,
  within 0 255 (sleep_miss_counter s) l = true ->
  sleep_miss_counter (run cfg l s) = sleep_miss_counter s + surplus l /\
  Forall (fun b => 1 <= b <= 255) (snapshots cfg l s).
Proof.
  induction l as [|a l IH]; intros s W.
  - cbn [run surplus snapshots]. split; [lia | constructor].
  - pose proof (within_head _ _ _ _ W) as B.
    destruct a; cbn [within] in W; rewrite !andb_true_iff in W;
      destruct W as [_ W]; pose proof (within_head _ _ _ _ W) as B';
      cbn [run access surplus snapshots].
    + assert (E : sleep_miss_counter (ISR cfg s) = sleep_miss_counter s + 1).
      { rewrite produce_counter. apply Z.mod_small. lia. }
      rewrite <- E in W. destruct (IH _ W) as [I1 I2].
      split; [lia | exact I2].
    + assert (E : sleep_miss_counter (final (eat_tick s))
                  = sleep_miss_counter s - 1).
      { rewrite consume_counter. apply Z.mod_small. lia. }
      rewrite <- E in W. destruct (IH _ W) as [I1 I2].
      split; [lia|]. constructor; [lia | exact I2].
Qed.

Lemma within_last lo hi l : forall b,
  within lo hi b l = true -> lo <= b + surplus l <= hi.
Proof.
  induction l as [|a l IH]; intros b W.
  - pose proof (within_head _ _ _ _ W). cbn [surplus]. lia.
  - destruct a; cbn [within] in W; rewrite !andb_true_iff in W;
      destruct W as [_ W]; specialize (IH _ W); cbn [surplus]; lia.
Qed.

(** C4, amended. In every interleaving of interrupts and passes through
    the atomic block of [doSleep] in which the ticks outstanding never
    go below 0 nor above 255, the counter is their exact number, stays
    in 0..255, and no consume decrements it at zero; and a call of
    [doSleep] enters sleep exactly when the value it saved is zero. *)
Theorem backlog_counts_outstanding_ticks (l : list Access) (s : State) :
  within 0 255 (sleep_miss_counter s) l = true ->
  sleep_miss_counter (run cfg l s) = sleep_miss_counter s + surplus l /\
  0 <= sleep_miss_counter (run cfg l s) <= 255 /\
  Forall (fun b => 1 <= b <= 255) (snapshots cfg l s) /\
  forall s', sleeps cfg s' = (sleep_miss_counter s' =? 0).
Proof.
  intros W. destruct (counter_tracks_surplus l s W) as [E F].
  pose proof (within_last _ _ _ _ W).
  repeat split; try lia; try assumption.
  apply sleeps_iff_zero.
Qed.

(** C4 as stated fails: after 256 interrupts with no consume in between
    the eight-bit counter is back at 0, so the consume that follows,
    which outnumbers nothing, saves 0, wraps the counter to 255 and
    enters sleep with 256 ticks outstanding. *)
Lemma backlog_wraps_after_256_interrupts :
  let c := FOUR_MHZ_CLOCK false false in
  let l := repeat Produce 256 ++ [Consume] in
  let s := final (main_init c (power_on 0 0)) in
  never_outnumber 0 l = true /\
  snapshots c l s = [0] /\
  sleep_miss_counter (run c l s) = 255 /\
  sleeps c (run c (repeat Produce 256) s) = true.
Proof. vm_compute. repeat split. Qed.

End Backlog.

Lemma backlog_counts_outstanding_ticks_witness :
  let l := [Produce; Produce; Consume; Produce; Consume; Consume] in
  let s := power_on 0 0 in
  let cfg := FOUR_MHZ_CLOCK false true in
  sleep_miss_counter (run cfg l s) = sleep_miss_counter s + surplus l /\
  0 <= sleep_miss_counter (run cfg l s) <= 255 /\
  Forall (fun b => 1 <= b <= 255) (snapshots cfg l s) /\
  forall s', sleeps cfg s' = (sleep_miss_counter s' =? 0).
Proof.
  apply (backlog_counts_outstanding_ticks (FOUR_MHZ_CLOCK false true)
           [Produce; Produce; Consume; Produce; Consume; Consume]
           (power_on 0 0)).
  reflexivity.
Defined.


(** ** The pulse driver *)

Section PulseDriver.

Variable cfg : Config.

Lemma port_values_app a b :
  port_values (a ++ b) = port_values a ++ port_values b.
Proof. unfold port_values. apply flat_map_app. Qed.

Lemma driven_app a b : driven (a ++ b) = driven a ++ driven b.
Proof. unfold driven. rewrite port_values_app. apply flat_map_app. Qed.

Lemma port_values_pin_events evs :
  port_values (filter is_pin_event evs) = port_values evs.
Proof.
  induction evs as [|e evs IH]; [reflexivity|].
  destruct e; cbn [filter is_pin_event]; try exact IH;
    change (port_values (?x :: ?l)) with (port_values [x] ++ port_values l);
    rewrite IH; reflexivity.
Qed.

Lemma driven_pin_events evs :
  driven (filter is_pin_event evs) = driven evs.
Proof. unfold driven. rewrite port_values_pin_events. reflexivity. Qed.

Lemma driven_train n last :
  driven (pulse_train (S n) last)
  = TICK_PIN last :: driven (pulse_train n (TICK_PIN last)).
Proof.
  cbn [pulse_train].
  destruct (TICK_PIN_cases last) as [[-> ->] | [-> ->]]; reflexivity.
Qed.

Lemma train_alternates n : forall last,
  alternates (driven (pulse_train n last)) = true /\
  length (driven (pulse_train n last)) = n.
Proof.
  induction n as [|n IH]; intros last; [split; reflexivity|].
  rewrite driven_train. destruct (IH (TICK_PIN last)) as [A L].
  split; [|cbn [length]; rewrite L; reflexivity].
  destruct n as [|n]; [reflexivity|].
  rewrite driven_train in A |- *.
  cbn [alternates] in A |- *.
  rewrite TICK_PIN_flips. exact A.
Qed.

Lemma train_one_pin_at_a_time n : forall last,
  forallb (fun v => negb (both_energized v))
    (port_values (pulse_train n last)) = true.
Proof.
  induction n as [|n IH]; intros last; [reflexivity|].
  cbn [pulse_train].
  change (port_values (?a :: EvDelay ?d :: ?b :: ?l))
    with (port_values [a; b] ++ port_values l).
  rewrite forallb_app, IH, andb_true_r.
  destruct (TICK_PIN_cases last) as [[_ ->] | [_ ->]]; reflexivity.
Qed.

Lemma train_pulses n : forall last, pulses (pulse_train n last) = n.
Proof.
  induction n as [|n IH]; intros last; [reflexivity|].
  cbn [pulse_train]. unfold pulses in *. cbn [filter is_delay length].
  rewrite IH. reflexivity.
Qed.

Lemma pulses_pin_events evs : pulses (filter is_pin_event evs) = pulses evs.
Proof.
  unfold pulses. induction evs as [|e evs IH]; [reflexivity|].
  destruct e; cbn [filter is_pin_event is_delay length]; rewrite ?IH;
    reflexivity.
Qed.

(** One step with the port low: the pin events are those of the pulses
    made, followed by the lock-up signal if the step locks up. *)
Lemma step_pins st s :
  PORTB s = 0 ->
  let o := step cfg st s in
  let n := if is_tick st then 1%nat else 0%nat in
  filter is_pin_event (events o)
    = pulse_train n (lastTick s) ++ lockup_signal o /\
  (DEBUG cfg = false -> returns o = true) /\
  (returns o = true ->
     PORTB (final o) = 0 /\
     lastTick (final o)
       = if is_tick st then TICK_PIN (lastTick s) else lastTick s).
Proof.
  intros P. cbv zeta. destruct st as [|[|]]; cbn [step call is_tick].
  - unfold modify. cbn [events returns final lockup_signal].
    destruct (ISR_frame cfg s) as (_ & F2 & F3 & _).
    rewrite F2, F3. repeat split; assumption.
  - destruct (calm_or_not cfg s) as [C | [D NZ]].
    + destruct (doTick_returns cfg s C)
        as (s' & evs & E & _ & _ & L & PT & _).
      destruct (PT P) as [P' T]. rewrite E.
      cbn [events returns final lockup_signal]. rewrite T, app_nil_r.
      repeat split; assumption.
    + destruct (doTick_locks cfg s D NZ P) as (s' & evs & E & T & _).
      rewrite E. cbn [events returns final lockup_signal].
      repeat split; try assumption; congruence.
  - destruct (calm_or_not cfg s) as [C | [D NZ]].
    + destruct (doSleep_returns cfg s C)
        as (s' & evs & E & _ & _ & L & P' & T & _).
      rewrite E. cbn [events returns final lockup_signal].
      rewrite T. repeat split; congruence.
    + destruct (doSleep_locks cfg s D NZ) as (s' & evs & E & T & _).
      rewrite E. cbn [events returns final lockup_signal].
      rewrite T, P. repeat split; try assumption; congruence.
Qed.

Lemma steps_pins l : forall s,
  PORTB s = 0 ->
  let o := steps cfg l s in
  exists k,
    filter is_pin_event (events o)
      = pulse_train k (lastTick s) ++ lockup_signal o /\
    (returns o = true -> k = length (filter is_tick l)) /\
    (DEBUG cfg = false -> returns o = true).
Proof.
  induction l as [|st l IH]; intros s P; cbv zeta.
  - exists 0%nat. repeat split.
  - destruct (step_pins st s P) as (T1 & R1 & F1).
    cbn [steps]. unfold bind.
    destruct (step cfg st s) as [[] s1 e1 | s1 e1].
    + cbn [events returns final lockup_signal] in T1, F1.
      destruct (F1 eq_refl) as [P1' L1].
      destruct (IH s1 P1') as (k & T2 & N2 & R2).
      rewrite app_nil_r in T1.
      destruct (steps cfg l s1) as [[] s2 e2 | s2 e2];
        cbn [events returns lockup_signal] in *;
        (exists ((if is_tick st then 1 else 0) + k)%nat);
        rewrite filter_app, T1, T2, L1;
        (split; [destruct (is_tick st); reflexivity|]);
        cbn [filter]; destruct (is_tick st); cbn [length Nat.add];
        split; auto; intros; try discriminate;
        rewrite N2; reflexivity.
    + cbn [events returns lockup_signal] in *.
      exists (if is_tick st then 1 else 0)%nat.
      split; [exact T1|]. split; [discriminate | exact R1].
Qed.

(** C9. Take any sequence of calls of [doTick] and [doSleep], with
    interrupts arriving between them at will, started with the port
    low.  Its port writes and delays are those of alternating pulses:
    each [doTick] raises the pin other than the one raised before (the
    first, other than [lastTick]), waits 35 ms and lowers it.  No two
    consecutive pulses are on the same pin, no port value has both coil
    pins high, and unless a DEBUG build locks up every [doTick] of the
    sequence has made its pulse. *)
Theorem pulses_alternate (l : list Step) (s : State) :
  PORTB s = 0 ->
  let o := steps cfg l s in
  let n := pulses (events o) in
  filter is_pin_event (events o)
    = pulse_train n (lastTick s) ++ lockup_signal o /\
  (returns o = true -> n = length (filter is_tick l)) /\
  (DEBUG cfg = false -> returns o = true) /\
  length (driven (events o)) = n /\
  alternates (driven (events o)) = true /\
  forallb (fun v => negb (both_energized v)) (port_values (events o)) = true.
Proof.
  intros P. cbv zeta.
  destruct (steps_pins l s P) as (k & T & N & R).
  assert (K : pulses (events (steps cfg l s)) = k).
  { rewrite <- pulses_pin_events, T, pulses_app, train_pulses.
    unfold lockup_signal. destruct (returns _); cbn; lia. }
  rewrite K.
  rewrite <- (driven_pin_events (events _)),
    <- (port_values_pin_events (events _)), T.
  rewrite driven_app, port_values_app, forallb_app.
  destruct (train_alternates k (lastTick s)) as [A L].
  rewrite train_one_pin_at_a_time.
  assert (Q : driven (lockup_signal (steps cfg l s)) = []
              /\ forallb (fun v => negb (both_energized v))
                   (port_values (lockup_signal (steps cfg l s))) = true)
    by (unfold lockup_signal; destruct (returns _); split; reflexivity).
  destruct Q as [Q1 Q2]. rewrite Q1, Q2, app_nil_r.
  repeat split; assumption.
Qed.

End PulseDriver.

Lemma pulses_alternate_witness :
  let cfg := FOUR_MHZ_CLOCK false true in
  let l := [Main CallTick; Main CallSleep; Main CallTick; Interrupt;
            Main CallTick; Main CallTick] in
  let s := final (main_init cfg (power_on 0 0)) in
  let o := steps cfg l s in
  let n := pulses (events o) in
  filter is_pin_event (events o)
    = pulse_train n (lastTick s) ++ lockup_signal o /\
  (returns o = true -> n = length (filter is_tick l)) /\
  (DEBUG cfg = false -> returns o = true) /\
  length (driven (events o)) = n /\
  alternates (driven (events o)) = true /\
  forallb (fun v => negb (both_energized v)) (port_values (events o)) = true.
Proof.
  apply (pulses_alternate (FOUR_MHZ_CLOCK false true)
           [Main CallTick; Main CallSleep; Main CallTick; Interrupt;
            Main CallTick; Main CallTick]
           (final (main_init (FOUR_MHZ_CLOCK false true) (power_on 0 0)))).
  reflexivity.
Defined.

(** ** The lazy clock *)

Section Lazy.

Variable cfg : Config.

Lemma tick_count_range r :
  0 <= r < 2 ^ 31 ->
  tick_count r = r mod 30 + 1 /\ 1 <= tick_count r <= 30.
Proof.
  intros R. unfold tick_count.
  rewrite Z.rem_mod_nonneg by lia.
  pose proof (Z.mod_pos_bound r 30 ltac:(lia)).
  unfold u8. rewrite Z.mod_small by lia. lia.
Qed.

(** A [for] loop whose body cannot lock up and always makes [c]
    consumes and [p] pulses. *)
Lemma for_loop_spec (body : Prog unit) (c p : nat) :
  (forall s, calm cfg s ->
     exists s' evs, body s = Done tt s' evs /\
       calm cfg s' /\ seed s' = seed s /\
       ticks_consumed evs = c /\ pulses evs = p) ->
  forall n s, calm cfg s ->
     exists s' evs, for_loop n body s = Done tt s' evs /\
       calm cfg s' /\ seed s' = seed s /\
       ticks_consumed evs = (n * c)%nat /\ pulses evs = (n * p)%nat.
Proof.
  intros B. induction n as [|n IH]; intros s C0.
  - exists s, []. repeat split; assumption.
  - destruct (B s C0) as (s1 & e1 & E1 & C1 & S1 & N1 & D1).
    destruct (IH s1 C1) as (s2 & e2 & E2 & C2 & S2 & N2 & D2).
    exists s2, (e1 ++ e2).
    cbn [for_loop]. unfold bind. rewrite E1, E2.
    rewrite ticks_consumed_app, pulses_app, N1, N2, D1, D2.
    repeat split; try assumption; try congruence; lia.
Qed.

(** The body of the first loop: a pulse, then one more sleep. *)
Lemma tick_and_sleep_spec s :
  calm cfg s ->
  exists s' evs, (doTick cfg ;; doSleep cfg) s = Done tt s' evs /\
    calm cfg s' /\ seed s' = seed s /\
    ticks_consumed evs = 2%nat /\ pulses evs = 1%nat.
Proof.
  intros C0.
  destruct (doTick_returns cfg s C0)
    as (s1 & e1 & E1 & C1 & S1 & _ & _ & N1 & D1).
  destruct (doSleep_returns cfg s1 C1)
    as (s2 & e2 & E2 & C2 & S2 & _ & _ & _ & N2 & D2).
  exists s2, (e1 ++ e2). unfold bind. rewrite E1, E2.
  rewrite ticks_consumed_app, pulses_app, N1, N2, D1, D2.
  repeat split; try assumption; congruence.
Qed.

Lemma sleep_only_spec s :
  calm cfg s ->
  exists s' evs, doSleep cfg s = Done tt s' evs /\
    calm cfg s' /\ seed s' = seed s /\
    ticks_consumed evs = 1%nat /\ pulses evs = 0%nat.
Proof.
  intros C0.
  destruct (doSleep_returns cfg s C0)
    as (s' & evs & E & C & S & _ & _ & _ & N & D).
  exists s', evs. repeat split; assumption.
Qed.

Lemma loop_iteration_spec r a s :
  0 <= r < 2 ^ 31 -> calm cfg s ->
  exists a' s' evs,
    loop_iteration cfg r a s = Done a' s' evs /\
    calm cfg s' /\ seed s' = seed s /\
    pulses evs = Z.to_nat (tick_count r) /\
    ticks_consumed evs = (10 * Z.to_nat (tick_count r))%nat.
Proof.
  intros R C0. destruct (tick_count_range r R) as [_ T].
  unfold loop_iteration. unfold bind at 1.
  assert (U : exists a' s0 w,
             (if u32 (a - 1) =? 0
              then updateSeed ;; ret SEED_UPDATE_INTERVAL
              else ret (u32 (a - 1))) s = Done a' s0 w /\
             calm cfg s0 /\ seed s0 = seed s /\ at_most_a_write w).
  { destruct (u32 (a - 1) =? 0).
    - destruct (updateSeed_spec s) as (e' & w & E & W).
      unfold bind, ret. rewrite E.
      exists SEED_UPDATE_INTERVAL, (set_ee_seed e' s), (w ++ []).
      rewrite app_nil_r. repeat split; assumption.
    - exists (u32 (a - 1)), s, []. unfold ret.
      repeat split; try assumption. left; reflexivity. }
  destruct U as (a' & s0 & w & E0 & C0' & S0 & W). rewrite E0.
  destruct (quiet_counts w W) as [Nw Dw].
  destruct (for_loop_spec _ 2 1 tick_and_sleep_spec
              (Z.to_nat (tick_count r)) s0 C0')
    as (s1 & e1 & E1 & C1 & S1 & N1 & D1).
  assert (S16 : s16 (tick_count r * 8) = tick_count r * 8).
  { unfold s16. rewrite Z.mod_small by lia. lia. }
  rewrite S16.
  destruct (for_loop_spec _ 1 0 sleep_only_spec
              (Z.to_nat (tick_count r * 8)) s1 C1)
    as (s2 & e2 & E2 & C2 & S2 & N2 & D2).
  exists a', s2, (w ++ e1 ++ e2 ++ []).
  unfold bind at 1. rewrite E1.
  unfold bind at 1. rewrite E2. unfold ret.
  rewrite !ticks_consumed_app, !pulses_app, Nw, Dw, N1, N2, D1, D2.
  repeat split; try assumption; try congruence; cbn [pulses ticks_consumed
    filter length]; lia.
Qed.

(** C1, amended. One pass of the lazy loop takes n = (random() mod 30)
    + 1, between 1 and 30, from the C library's generator, leaving the
    seed of [q_random] as it was; makes exactly n pulses, each in a
    [doTick] followed by one more [doSleep], then 8n calls of [doSleep]:
    10n ticks consumed for n pulses. *)
Theorem lazy_pass_consumes_ten_ticks_per_pulse (r a : Z) (s : State) :
  0 <= r < 2 ^ 31 -> calm cfg s ->
  let n := Z.to_nat (tick_count r) in
  let o := loop_iteration cfg r a s in
  tick_count r = r mod 30 + 1 /\ 1 <= tick_count r <= 30 /\
  returns o = true /\
  pulses (events o) = n /\
  ticks_consumed (events o) = (10 * n)%nat /\
  seed (final o) = seed s /\
  calm cfg (final o).
Proof.
  intros R C0. cbv zeta.
  destruct (tick_count_range r R) as [T1 T2].
  destruct (loop_iteration_spec r a s R C0)
    as (a' & s' & evs & E & C & S & D & N).
  rewrite E. cbn [returns events final].
  repeat split; try assumption; lia.
Qed.

(** Over any number of passes the lazy loop consumes ten ticks for each
    pulse: one pulse per second at ten ticks a second. *)
Lemma lazy_loop_rate rs : forall a s,
  Forall (fun r => 0 <= r < 2 ^ 31) rs -> calm cfg s ->
  exists a' s' evs,
    loop cfg rs a s = Done a' s' evs /\ calm cfg s' /\
    ticks_consumed evs = (10 * pulses evs)%nat.
Proof.
  induction rs as [|r rs IH]; intros a s R C0.
  - exists a, s, []. repeat split; assumption.
  - inversion R as [|? ? Rr Rrs]; subst.
    destruct (loop_iteration_spec r a s Rr C0)
      as (a1 & s1 & e1 & E1 & C1 & _ & D1 & N1).
    destruct (IH a1 s1 Rrs C1) as (a2 & s2 & e2 & E2 & C2 & N2).
    exists a2, s2, (e1 ++ e2).
    cbn [loop]. unfold bind. rewrite E1, E2.
    rewrite ticks_consumed_app, pulses_app.
    repeat split; try assumption. lia.
Qed.

End Lazy.

Lemma lazy_pass_consumes_ten_ticks_per_pulse_witness :
  let cfg := FOUR_MHZ_CLOCK false true in
  let r := 1804289383 in
  let s := final (main_init cfg (power_on 0 0)) in
  let n := Z.to_nat (tick_count r) in
  let o := loop_iteration cfg r SEED_UPDATE_INTERVAL s in
  tick_count r = r mod 30 + 1 /\ 1 <= tick_count r <= 30 /\
  returns o = true /\
  pulses (events o) = n /\
  ticks_consumed (events o) = (10 * n)%nat /\
  seed (final o) = seed s /\
  calm cfg (final o).
Proof.
  apply (lazy_pass_consumes_ten_ticks_per_pulse (FOUR_MHZ_CLOCK false true)
           1804289383 SEED_UPDATE_INTERVAL
           (final (main_init (FOUR_MHZ_CLOCK false true) (power_on 0 0)))).
  - lia.
  - right. reflexivity.
Defined.

(** C1 as stated fails: with random() = 0 the pass makes one pulse and
    consumes ten ticks, not nine. *)
Lemma lazy_pass_not_nine_ticks :
  let cfg := FOUR_MHZ_CLOCK false false in
  let s := final (main_init cfg (power_on 0 0)) in
  let o := loop_iteration cfg 0 SEED_UPDATE_INTERVAL s in
  tick_count 0 = 1 /\
  pulses (events o) = 1%nat /\
  ticks_consumed (events o) = 10%nat /\
  ticks_consumed (events o) <> (9 * Z.to_nat (tick_count 0))%nat.
Proof. vm_compute. repeat split. discriminate. Qed.

(** * Further properties of the code *)

(** ** The generator as a multiplicative congruential generator *)

Section Lehmer.

Lemma q_step_mulmod seed :
  0 <= seed <= M -> q_step seed = (31744 * seed) mod M.
Proof.
  intros H.
  assert (Hs : is_s32 seed) by (unfold is_s32, M in *; lia).
  pose proof (q_step_range seed Hs) as R.
  destruct (q_step_congr seed Hs) as [k E].
  replace (31744 * seed) with (q_step seed + (- k) * M) by lia.
  rewrite Z.mod_add by (unfold M; lia).
  symmetry. apply Z.mod_small. unfold M. lia.
Qed.

(** X1. On a seed between 0 and 2^31-1, [q_random] stores and returns
    31744 * seed modulo 2^31-1: the shifts and masks compute a
    multiplicative congruential generator. *)
Theorem q_random_multiplies_by_31744 (s : State) :
  0 <= seed s <= M ->
  q_random s =
    Done ((31744 * seed s) mod M) (set_seed ((31744 * seed s) mod M) s) [].
Proof.
  intros H. rewrite q_random_eq, (q_step_mulmod _ H).
  rewrite u32_small; [reflexivity|].
  pose proof (Z.mod_pos_bound (31744 * seed s) M ltac:(unfold M; lia)).
  unfold M in *. lia.
Qed.

Lemma outputs_in_range n : forall seed,
  0 < seed < M ->
  Forall (fun v => 0 < v < M) (outputs q_step n seed).
Proof.
  induction n as [|n IH]; intros seed H; [constructor|].
  destruct (q_step_nondegenerate seed H) as [R _].
  cbn [outputs]. constructor.
  - rewrite u32_small; [exact R|]. unfold M in R. lia.
  - apply IH. exact R.
Qed.

(** X2. Started on a seed between 1 and 2^31-2 the generator stays
    there: no output is ever 0 or 2^31-1, whatever the number of
    steps, and no step returns the seed it started from. *)
Theorem generator_never_degenerates (n : nat) (seed : Z) :
  0 < seed < M ->
  Forall (fun v => 0 < v < M) (outputs q_step n seed) /\
  q_step seed <> seed.
Proof.
  intros H. split.
  - apply outputs_in_range. exact H.
  - apply q_step_nondegenerate. exact H.
Qed.

(** X3. Two different seeds between 0 and 2^31-2 never step to the same
    value: the generator permutes the seeds and merges no two
    sequences. *)
Theorem q_step_injective (a b : Z) :
  0 <= a < M -> 0 <= b < M -> a <> b -> q_step a <> q_step b.
Proof.
  intros Ha Hb N E. apply N.
  assert (Sa : is_s32 a) by (unfold is_s32, M in *; lia).
  assert (Sb : is_s32 b) by (unfold is_s32, M in *; lia).
  destruct (q_step_congr a Sa) as [ka Ka].
  destruct (q_step_congr b Sb) as [kb Kb].
  assert (D : (M | a - b)).
  { apply (Z.gauss M 31744); [|exact M_coprime_31744].
    exists (kb - ka). lia. }
  destruct D as [c C]. unfold M in *.
  assert (c = 0) by nia. lia.
Qed.

End Lehmer.

Lemma q_random_multiplies_by_31744_witness :
  let s := set_seed 1507996066 (power_on 0 0) in
  q_random s =
    Done ((31744 * seed s) mod M) (set_seed ((31744 * seed s) mod M) s) [].
Proof.
  apply (q_random_multiplies_by_31744 (set_seed 1507996066 (power_on 0 0))).
  unfold M. simpl. lia.
Defined.

Lemma generator_never_degenerates_witness :
  Forall (fun v => 0 < v < M) (outputs q_step 5 0x12345678) /\
  q_step 0x12345678 <> 0x12345678.
Proof.
  apply (generator_never_degenerates 5 0x12345678). unfold M. lia.
Defined.

Lemma q_step_injective_witness : q_step 1 <> q_step 2147483646.
Proof.
  apply (q_step_injective 1 2147483646); unfold M; lia.
Defined.

(** ** Persisting the seed *)

Section Persist.

Variable cfg : Config.

Lemma s32_u32 z : is_s32 z -> s32 (u32 z) = z.
Proof.
  unfold is_s32, s32, u32. intros H.
  rewrite Zplus_mod_idemp_l.
  rewrite Z.mod_small by lia. lia.
Qed.

Lemma updateSeed_eq s :
  updateSeed s =
    if s32 (ee_seed s) =? seed s then Done tt s []
    else Done tt (set_ee_seed (u32 (seed s)) s) [EvEeWrite (u32 (seed s))].
Proof.
  unfold updateSeed, bind, read, modify, emit, ret.
  destruct (s32 (ee_seed s) =? seed s); reflexivity.
Qed.

(** X4. [updateSeed] leaves the EEPROM holding the seed and changes
    nothing else; it writes exactly when the stored value differed, and
    a second call right after it writes nothing. *)
Theorem updateSeed_idempotent (s : State) :
  is_s32 (seed s) ->
  let o1 := updateSeed s in
  let o2 := updateSeed (final o1) in
  synced (final o1) /\
  final o1 = set_ee_seed (ee_seed (final o1)) s /\
  (eeprom_writes (events o1) = [] <-> synced s) /\
  (length (eeprom_writes (events o1)) <= 1)%nat /\
  events o2 = [] /\ final o2 = final o1.
Proof.
  intros H. cbv zeta. unfold synced.
  rewrite (updateSeed_eq s).
  destruct (Z.eqb_spec (s32 (ee_seed s)) (seed s)) as [E | N].
  - cbn [final events eeprom_writes flat_map length].
    rewrite (updateSeed_eq s).
    destruct (Z.eqb_spec (s32 (ee_seed s)) (seed s)) as [_ | N];
      [|contradiction].
    repeat split; auto; destruct s; reflexivity.
  - cbn [final events eeprom_writes flat_map app length].
    rewrite updateSeed_eq. cbn [ee_seed seed set_ee_seed].
    rewrite (s32_u32 _ H), Z.eqb_refl.
    repeat split; auto; try discriminate.
    intros E. contradiction.
Qed.

Lemma main_init_stored s :
  is_u32 (ee_seed s) ->
  let q := q_step (guard_seed (s32 (ee_seed s))) in
  seed (final (main_init cfg s)) = q /\
  ee_seed (final (main_init cfg s)) = q /\ 0 <= q < M.
Proof.
  intros H. cbv zeta. rewrite main_init_eq. cbv zeta.
  set (z := s32 (ee_seed s)).
  assert (Hz : is_s32 z) by apply s32_range.
  pose proof (perturbed_differs z Hz) as D.
  pose proof (q_step_range _ (guard_seed_range z Hz)) as R.
  destruct (Z.eqb_spec z (q_step (guard_seed z))) as [E | _]; [congruence|].
  cbn [final seed ee_seed]. rewrite u32_small by lia.
  unfold M. repeat split; lia.
Qed.

(** X5. When the EEPROM holds a seed between 1 and 2^31-2, start-up
    replaces it by 31744 times that seed modulo 2^31-1, again between
    1 and 2^31-2, in memory and in the EEPROM: each battery change
    moves the stored seed one place along the generator's sequence. *)
Theorem startup_advances_stored_seed (s : State) :
  0 < ee_seed s < M ->
  let s' := final (main_init cfg s) in
  seed s' = (31744 * ee_seed s) mod M /\
  ee_seed s' = seed s' /\
  0 < seed s' < M /\ seed s' <> ee_seed s.
Proof.
  intros H. cbv zeta.
  assert (U : is_u32 (ee_seed s)) by (unfold is_u32, M in *; lia).
  destruct (main_init_stored s U) as (E1 & E2 & _).
  assert (Z1 : s32 (ee_seed s) = ee_seed s)
    by (apply s32_id; unfold is_s32, M in *; lia).
  assert (G : guard_seed (ee_seed s) = ee_seed s).
  { destruct (guard_seed_cases (ee_seed s)) as [[_ C] | [G _]];
      [unfold is_s32, M in *; lia | unfold M in *; lia | exact G]. }
  rewrite Z1, G in E1, E2.
  destruct (q_step_nondegenerate _ H) as [R F].
  rewrite E2, E1, <- q_step_mulmod by lia.
  repeat split; lia.
Qed.

(** X6. Whatever the EEPROM holds, by the second start-up in a row the
    seed is between 1 and 2^31-2: a degenerate seed left by one
    start-up does not survive the next battery change. *)
Theorem second_startup_is_nondegenerate (s : State) :
  is_u32 (ee_seed s) ->
  let s1 := final (main_init cfg s) in
  let s2 := final (main_init cfg (power_cycle s1)) in
  0 < seed s2 < M /\ ee_seed s2 = seed s2.
Proof.
  intros H. cbv zeta.
  destruct (main_init_stored s H) as (_ & E2 & R).
  set (s1 := final (main_init cfg s)) in *.
  assert (U : is_u32 (ee_seed (power_cycle s1)))
    by (cbn [power_cycle power_on ee_seed]; unfold is_u32, M in *; lia).
  destruct (main_init_stored _ U) as (F1 & F2 & _).
  cbn [power_cycle power_on ee_seed] in F1, F2.
  rewrite F2, F1. split; [|reflexivity].
  rewrite s32_id by (unfold is_s32, M in *; lia).
  assert (ee_seed s1 = 0 \/ 0 < ee_seed s1 < M) as [Z0 | P] by lia.
  - rewrite Z0. vm_compute. split; reflexivity.
  - assert (G : guard_seed (ee_seed s1) = ee_seed s1).
    { destruct (guard_seed_cases (ee_seed s1)) as [[_ C] | [G _]];
        [unfold is_s32, M in *; lia | unfold M in *; lia | exact G]. }
    rewrite G. apply q_step_nondegenerate. exact P.
Qed.

End Persist.

Lemma updateSeed_idempotent_witness :
  let s := set_seed 1507996066 (power_on 0xFFFFFFFF 0) in
  let o1 := updateSeed s in
  let o2 := updateSeed (final o1) in
  synced (final o1) /\
  final o1 = set_ee_seed (ee_seed (final o1)) s /\
  (eeprom_writes (events o1) = [] <-> synced s) /\
  (length (eeprom_writes (events o1)) <= 1)%nat /\
  events o2 = [] /\ final o2 = final o1.
Proof.
  apply (updateSeed_idempotent (set_seed 1507996066 (power_on 0xFFFFFFFF 0))).
  unfold is_s32. simpl. lia.
Defined.

Lemma startup_advances_stored_seed_witness :
  let s := power_on 1507996066 0 in
  let s' := final (main_init (FOUR_MHZ_CLOCK false false) s) in
  seed s' = (31744 * ee_seed s) mod M /\
  ee_seed s' = seed s' /\
  0 < seed s' < M /\ seed s' <> ee_seed s.
Proof.
  apply (startup_advances_stored_seed (FOUR_MHZ_CLOCK false false)
           (power_on 1507996066 0)).
  unfold M. simpl. lia.
Defined.

Lemma second_startup_is_nondegenerate_witness :
  let cfg := THIRTYTWO_KHZ_CLOCK false false in
  let s1 := final (main_init cfg (power_on 0x80000001 0)) in
  let s2 := final (main_init cfg (power_cycle s1)) in
  0 < seed s2 < M /\ ee_seed s2 = seed s2.
Proof.
  apply (second_startup_is_nondegenerate (THIRTYTWO_KHZ_CLOCK false false)
           (power_on 0x80000001 0)).
  unfold is_u32. simpl. lia.
Defined.

(** ** The divider of any profile *)

Section AnyProfile.

Variable cfg : Config.

Hypothesis no_trim : SW_TRIM cfg = false.
Hypothesis long_cycles : 0 < CLOCK_NUM_LONG_CYCLES cfg < CLOCK_CYCLES cfg.
Hypothesis cycles_fit : CLOCK_CYCLES cfg <= 255.
Hypothesis basic_fits : 0 <= CLOCK_BASIC_CYCLE cfg <= 254.

Lemma ISR_divider_any s :
  0 <= cycle_pos s < CLOCK_CYCLES cfg ->
  OCR0A s = (if cycle_pos s <? CLOCK_NUM_LONG_CYCLES cfg
             then CLOCK_BASIC_CYCLE cfg + 1 else CLOCK_BASIC_CYCLE cfg) ->
  cycle_pos (ISR cfg s) = (cycle_pos s + 1) mod CLOCK_CYCLES cfg /\
  OCR0A (ISR cfg s) =
    (if (cycle_pos s + 1) mod CLOCK_CYCLES cfg <? CLOCK_NUM_LONG_CYCLES cfg
     then CLOCK_BASIC_CYCLE cfg + 1 else CLOCK_BASIC_CYCLE cfg).
Proof.
  intros R O. unfold ISR. rewrite no_trim.
  assert (U : u8 (cycle_pos s + 1) = cycle_pos s + 1)
    by (apply Z.mod_small; lia).
  assert (U1 : u8 (CLOCK_BASIC_CYCLE cfg + 0) = CLOCK_BASIC_CYCLE cfg)
    by (rewrite Z.add_0_r; apply Z.mod_small; lia).
  assert (U2 : u8 (CLOCK_BASIC_CYCLE cfg + 1 + 0) = CLOCK_BASIC_CYCLE cfg + 1)
    by (rewrite Z.add_0_r; apply Z.mod_small; lia).
  rewrite U, U1, U2.
  assert (cycle_pos s + 1 = CLOCK_CYCLES cfg
          \/ cycle_pos s + 1 < CLOCK_CYCLES cfg) as [E | L] by lia.
  - rewrite E, Z.mod_same by lia.
    destruct (Z.eqb_spec (CLOCK_CYCLES cfg) (CLOCK_NUM_LONG_CYCLES cfg));
      [lia|].
    destruct (Z.geb_spec (CLOCK_CYCLES cfg) (CLOCK_CYCLES cfg)); [|lia].
    destruct (Z.ltb_spec 0 (CLOCK_NUM_LONG_CYCLES cfg)); [|lia].
    split; reflexivity.
  - rewrite (Z.mod_small (cycle_pos s + 1)) by lia.
    destruct (Z.geb_spec (cycle_pos s + 1) (CLOCK_CYCLES cfg)); [lia|].
    destruct (Z.eqb_spec (cycle_pos s + 1) (CLOCK_NUM_LONG_CYCLES cfg))
      as [E | N]; cbn [cycle_pos OCR0A]; split; try reflexivity.
    + rewrite E, Z.ltb_irrefl. reflexivity.
    + rewrite O.
      destruct (Z.ltb_spec (cycle_pos s) (CLOCK_NUM_LONG_CYCLES cfg)),
        (Z.ltb_spec (cycle_pos s + 1) (CLOCK_NUM_LONG_CYCLES cfg));
        try reflexivity; lia.
Qed.

Lemma divider_invariant_any k s :
  cycle_pos s = 0 -> OCR0A s = CLOCK_BASIC_CYCLE cfg + 1 ->
  cycle_pos (interrupts cfg k s) = Z.of_nat k mod CLOCK_CYCLES cfg /\
  OCR0A (interrupts cfg k s) =
    (if Z.of_nat k mod CLOCK_CYCLES cfg <? CLOCK_NUM_LONG_CYCLES cfg
     then CLOCK_BASIC_CYCLE cfg + 1 else CLOCK_BASIC_CYCLE cfg).
Proof.
  intros C O. induction k as [|k [IHc IHo]].
  - cbn [interrupts Z.of_nat]. rewrite Z.mod_0_l by lia. rewrite C, O.
    destruct (Z.ltb_spec 0 (CLOCK_NUM_LONG_CYCLES cfg)); [|lia].
    split; reflexivity.
  - rewrite interrupts_S.
    pose proof (Z.mod_pos_bound (Z.of_nat k) (CLOCK_CYCLES cfg) ltac:(lia))
      as B.
    rewrite <- IHc in B, IHo.
    destruct (ISR_divider_any _ B IHo) as [Hc Ho].
    rewrite Hc, Ho, IHc, Nat2Z.inj_succ, Z.add_mod_idemp_l by lia.
    split; reflexivity.
Qed.

(** The first [j] intervals of a cycle: all of basic length plus one
    clock, and one clock more for each of the long ones. *)
Lemma elapsed_prefix j s :
  cycle_pos s = 0 -> OCR0A s = CLOCK_BASIC_CYCLE cfg + 1 ->
  Z.of_nat j <= CLOCK_CYCLES cfg ->
  elapsed cfg j s =
    Z.of_nat j * (CLOCK_BASIC_CYCLE cfg + 1)
    + Z.min (Z.of_nat j) (CLOCK_NUM_LONG_CYCLES cfg).
Proof.
  intros C O. induction j as [|j IH]; intros B.
  - cbn [elapsed Z.of_nat]. lia.
  - rewrite elapsed_snoc, IH by lia.
    destruct (divider_invariant_any j s C O) as [_ Ho].
    unfold interval. rewrite Ho, Z.mod_small by lia.
    destruct (Z.ltb_spec (Z.of_nat j) (CLOCK_NUM_LONG_CYCLES cfg)); lia.
Qed.

Lemma elapsed_window_any k s :
  cycle_pos s = 0 -> OCR0A s = CLOCK_BASIC_CYCLE cfg + 1 ->
  elapsed cfg (Z.to_nat (CLOCK_CYCLES cfg)) (interrupts cfg k s)
  = CLOCK_CYCLES cfg * (CLOCK_BASIC_CYCLE cfg + 1)
    + CLOCK_NUM_LONG_CYCLES cfg.
Proof.
  intros C O. set (n := Z.to_nat (CLOCK_CYCLES cfg)).
  assert (N : Z.of_nat n = CLOCK_CYCLES cfg) by (unfold n; lia).
  induction k as [|k IH].
  - cbn [interrupts]. rewrite elapsed_prefix by (try assumption; lia). lia.
  - pose proof (elapsed_snoc cfg n (interrupts cfg k s)) as E.
    change (elapsed cfg (S n) (interrupts cfg k s))
      with (interval (interrupts cfg k s)
            + elapsed cfg n (ISR cfg (interrupts cfg k s))) in E.
    rewrite <- interrupts_S, <- interrupts_add in E.
    destruct (divider_invariant_any k s C O) as [_ O1].
    destruct (divider_invariant_any (k + n) s C O) as [_ O2].
    replace (Z.of_nat (k + n) mod CLOCK_CYCLES cfg)
      with (Z.of_nat k mod CLOCK_CYCLES cfg) in O2.
    + unfold interval in E. rewrite O1, O2 in E. lia.
    + rewrite Nat2Z.inj_add, N.
      replace (Z.of_nat k + CLOCK_CYCLES cfg)
        with (Z.of_nat k + 1 * CLOCK_CYCLES cfg) by lia.
      rewrite Z.mod_add by lia. reflexivity.
Qed.

(** X7. In any build without trim whose constants fit the eight-bit
    registers, with 0 < long cycles < cycles: after any number of
    interrupts the handler's position is that number modulo the cycle
    length, the compare target is basic + 1 on the first "long cycles"
    positions and basic on the others, and every window of one cycle
    length lasts cycles * (basic + 2) - (cycles - long cycles) timer
    clocks.  The divisor is basic + 1 + long cycles / cycles on
    average. *)
Theorem divider_exact_any_profile (s : State) (k : nat) :
  cycle_pos s = 0 -> OCR0A s = CLOCK_BASIC_CYCLE cfg + 1 ->
  let sk := interrupts cfg k s in
  cycle_pos sk = Z.of_nat k mod CLOCK_CYCLES cfg /\
  OCR0A sk =
    (if Z.of_nat k mod CLOCK_CYCLES cfg <? CLOCK_NUM_LONG_CYCLES cfg
     then CLOCK_BASIC_CYCLE cfg + 1 else CLOCK_BASIC_CYCLE cfg) /\
  elapsed cfg (Z.to_nat (CLOCK_CYCLES cfg)) sk
  = CLOCK_CYCLES cfg * (CLOCK_BASIC_CYCLE cfg + 2)
    - (CLOCK_CYCLES cfg - CLOCK_NUM_LONG_CYCLES cfg).
Proof.
  intros C O. cbv zeta.
  destruct (divider_invariant_any k s C O) as [Hc Ho].
  rewrite (elapsed_window_any k s C O).
  repeat split; try assumption. lia.
Qed.

End AnyProfile.

Lemma divider_exact_any_profile_witness :
  let cfg := THIRTYTWO_KHZ_CLOCK false true in
  let s := final (main_init cfg (power_on 0 0)) in
  let sk := interrupts cfg 7 s in
  cycle_pos sk = Z.of_nat 7 mod CLOCK_CYCLES cfg /\
  OCR0A sk =
    (if Z.of_nat 7 mod CLOCK_CYCLES cfg <? CLOCK_NUM_LONG_CYCLES cfg
     then CLOCK_BASIC_CYCLE cfg + 1 else CLOCK_BASIC_CYCLE cfg) /\
  elapsed cfg (Z.to_nat (CLOCK_CYCLES cfg)) sk
  = CLOCK_CYCLES cfg * (CLOCK_BASIC_CYCLE cfg + 2)
    - (CLOCK_CYCLES cfg - CLOCK_NUM_LONG_CYCLES cfg).
Proof.
  apply (divider_exact_any_profile (THIRTYTWO_KHZ_CLOCK false true));
    try reflexivity; cbn; lia.
Defined.

(** ** Ten interrupts a second *)

Section TenHertz.

Variable dbg : bool.

Lemma four_mhz_fits :
  let cfg := FOUR_MHZ_CLOCK false dbg in
  SW_TRIM cfg = false /\
  0 < CLOCK_NUM_LONG_CYCLES cfg < CLOCK_CYCLES cfg /\
  CLOCK_CYCLES cfg <= 255 /\ 0 <= CLOCK_BASIC_CYCLE cfg <= 254.
Proof. cbn. lia. Qed.

Lemma thirtytwo_khz_fits :
  let cfg := THIRTYTWO_KHZ_CLOCK false dbg in
  SW_TRIM cfg = false /\
  0 < CLOCK_NUM_LONG_CYCLES cfg < CLOCK_CYCLES cfg /\
  CLOCK_CYCLES cfg <= 255 /\ 0 <= CLOCK_BASIC_CYCLE cfg <= 254.
Proof. cbn. lia. Qed.

(** X8. Both profiles interrupt ten times a second on average, exactly.
    In the 32 kHz build the compare target is 51 before the first
    interrupt of each five and 50 before the other four, and any five
    consecutive intervals last 256 timer clocks, half a second of the
    32768 Hz crystal; in the 4 MHz build any 64 consecutive intervals
    last 6.4 seconds of the 4 MHz crystal. *)
Theorem both_profiles_tick_at_ten_hertz (s4 s32k : State) (k : nat) :
  cycle_pos s4 = 0 -> OCR0A s4 = 48 ->
  cycle_pos s32k = 0 -> OCR0A s32k = 51 ->
  let fast := FOUR_MHZ_CLOCK false dbg in
  let slow := THIRTYTWO_KHZ_CLOCK false dbg in
  OCR0A (interrupts slow k s32k)
    = (if Z.of_nat k mod 5 =? 0 then 51 else 50) /\
  elapsed slow 5 (interrupts slow k s32k) = 256 /\
  10 * (elapsed slow 5 (interrupts slow k s32k) * TIMER_PRESCALE)
    = 5 * THIRTYTWO_KHZ /\
  10 * (elapsed fast 64 (interrupts fast k s4)
        * TIMER_PRESCALE * CLOCK_DIV_FOUR_MHZ)
    = 64 * FOUR_MHZ.
Proof.
  intros C4 O4 C32 O32. cbv zeta.
  destruct thirtytwo_khz_fits as (T1 & T2 & T3 & T4).
  destruct four_mhz_fits as (F1 & F2 & F3 & F4).
  pose proof (elapsed_window_any _ T1 T2 T3 T4 k s32k C32 O32) as E32.
  pose proof (elapsed_window_any _ F1 F2 F3 F4 k s4 C4 O4) as E4.
  destruct (divider_invariant_any _ T1 T2 T3 T4 k s32k C32 O32) as [_ Ho].
  cbn [THIRTYTWO_KHZ_CLOCK FOUR_MHZ_CLOCK CLOCK_CYCLES CLOCK_BASIC_CYCLE
       CLOCK_NUM_LONG_CYCLES] in E32, E4, Ho.
  change (Z.to_nat 5) with 5%nat in E32.
  change (Z.to_nat 64) with 64%nat in E4.
  rewrite E32, E4, Ho.
  pose proof (Z.mod_pos_bound (Z.of_nat k) 5 ltac:(lia)).
  split; [|repeat split].
  destruct (Z.ltb_spec (Z.of_nat k mod 5) 1),
    (Z.eqb_spec (Z.of_nat k mod 5) 0); try reflexivity; lia.
Qed.

End TenHertz.

Lemma both_profiles_tick_at_ten_hertz_witness :
  let fast := FOUR_MHZ_CLOCK false false in
  let slow := THIRTYTWO_KHZ_CLOCK false false in
  let s4 := final (main_init fast (power_on 0 0)) in
  let s32k := final (main_init slow (power_on 0 0)) in
  OCR0A (interrupts slow 12 s32k)
    = (if Z.of_nat 12 mod 5 =? 0 then 51 else 50) /\
  elapsed slow 5 (interrupts slow 12 s32k) = 256 /\
  10 * (elapsed slow 5 (interrupts slow 12 s32k) * TIMER_PRESCALE)
    = 5 * THIRTYTWO_KHZ /\
  10 * (elapsed fast 64 (interrupts fast 12 s4)
        * TIMER_PRESCALE * CLOCK_DIV_FOUR_MHZ)
    = 64 * FOUR_MHZ.
Proof.
  apply (both_profiles_tick_at_ten_hertz false
           (final (main_init (FOUR_MHZ_CLOCK false false) (power_on 0 0)))
           (final (main_init (THIRTYTWO_KHZ_CLOCK false false) (power_on 0 0)))
           12); reflexivity.
Defined.

(** ** The trim accumulator *)

Section Trim.

Variable cfg : Config.

Lemma ISR_accumulates s :
  SW_TRIM cfg = true ->
  0 <= trim_pos s < 10000000 -> 0 <= OCR0A s < 256 ->
  trim_pos (ISR cfg s)
    = trim_pos s + (if rolls_over cfg s then 10000000 else 0) - OCR0A s /\
  0 <= trim_pos (ISR cfg s) < 10000000.
Proof.
  intros T R O. unfold ISR, rolls_over. rewrite T. cbn [andb].
  destruct (Z.ltb_spec (trim_pos s) (OCR0A s)) as [L | G];
    cbv zeta; cbn [trim_pos].
  - rewrite (u32_small (trim_pos s + 10000000)) by lia.
    rewrite u32_small by lia.
    destruct (_ =? _), (_ >=? _); cbn [trim_pos]; lia.
  - rewrite u32_small by lia.
    destruct (_ =? _), (_ >=? _); cbn [trim_pos]; lia.
Qed.

Lemma ISR_target_fits s : 0 <= OCR0A s < 256 -> 0 <= OCR0A (ISR cfg s) < 256.
Proof.
  intros O. unfold ISR.
  repeat match goal with
         | |- context [if ?b then _ else _] => destruct b
         end; cbn [OCR0A]; try exact O;
    apply Z.mod_pos_bound; lia.
Qed.

(** X9. With software trim the accumulator never leaves 0..9999999 and
    loses nothing: over any number of interrupts, what it holds plus
    the compare values the handler read equals what it held before
    plus ten million for each roll-over.  The handler accumulates the
    compare values themselves, one less than the timer clocks of each
    interval. *)
Theorem accumulator_conserves (k : nat) (s : State) :
  SW_TRIM cfg = true ->
  0 <= trim_pos s < 10000000 -> 0 <= OCR0A s < 256 ->
  let sk := interrupts cfg k s in
  0 <= trim_pos sk < 10000000 /\
  trim_pos sk + compare_sum cfg k s
    = trim_pos s + 10000000 * rollovers cfg k s /\
  compare_sum cfg k s = elapsed cfg k s - Z.of_nat k.
Proof.
  intros T. revert s. induction k as [|k IH]; intros s R O; cbv zeta.
  - cbn [interrupts compare_sum rollovers elapsed Z.of_nat]. lia.
  - destruct (ISR_accumulates s T R O) as [E R'].
    pose proof (ISR_target_fits s O) as O'.
    destruct (IH (ISR cfg s) R' O') as (I1 & I2 & I3).
    cbn [interrupts compare_sum rollovers elapsed].
    unfold interval. rewrite Nat2Z.inj_succ.
    destruct (rolls_over cfg s); lia.
Qed.

Lemma ISR_zero_trim s1 s2 :
  same_but_trim_pos s1 s2 -> s16 (ee_trim s1) = 0 ->
  same_but_trim_pos (ISR (set_SW_TRIM true cfg) s1)
    (ISR (set_SW_TRIM false cfg) s2).
Proof.
  intros (E1 & E2 & E3 & E4 & E5 & E6 & E7 & E8 & E9) Z0.
  unfold ISR, same_but_trim_pos.
  cbn [set_SW_TRIM SW_TRIM CLOCK_CYCLES CLOCK_BASIC_CYCLE
       CLOCK_NUM_LONG_CYCLES].
  rewrite E1, E2, E3, E4, E5, E6, E7, E8, E9.
  rewrite E9 in Z0. rewrite Z0.
  destruct (trim_pos s1 <? OCR0A s2); cbv zeta;
    destruct (_ =? _), (_ >=? _); repeat split.
Qed.

(** X10. A stored trim of zero is no trim: from the same state the build
    with software trim and the build without it agree after any number
    of interrupts on everything but the accumulator, the compare
    target and the tick count included. *)
Theorem zero_trim_is_no_trim (k : nat) (s : State) :
  s16 (ee_trim s) = 0 ->
  same_but_trim_pos (interrupts (set_SW_TRIM true cfg) k s)
    (interrupts (set_SW_TRIM false cfg) k s).
Proof.
  intros Z0.
  assert (G : forall s1 s2, same_but_trim_pos s1 s2 ->
                s16 (ee_trim s1) = 0 ->
                same_but_trim_pos (interrupts (set_SW_TRIM true cfg) k s1)
                  (interrupts (set_SW_TRIM false cfg) k s2)).
  { induction k as [|j IH]; intros s1 s2 R Z1; [exact R|].
    cbn [interrupts]. apply IH.
    - apply ISR_zero_trim; assumption.
    - unfold ISR at 1. cbn [ee_trim].
      repeat match goal with
             | |- context [if ?b then _ else _] => destruct b
             end; exact Z1. }
  apply G; [|exact Z0]. unfold same_but_trim_pos. repeat split.
Qed.

End Trim.

Lemma accumulator_conserves_witness :
  let cfg := FOUR_MHZ_CLOCK true false in
  let s := final (main_init cfg (power_on 0 5)) in
  let sk := interrupts cfg 200 s in
  0 <= trim_pos sk < 10000000 /\
  trim_pos sk + compare_sum cfg 200 s
    = trim_pos s + 10000000 * rollovers cfg 200 s /\
  compare_sum cfg 200 s = elapsed cfg 200 s - Z.of_nat 200.
Proof.
  apply (accumulator_conserves (FOUR_MHZ_CLOCK true false) 200
           (final (main_init (FOUR_MHZ_CLOCK true false) (power_on 0 5))));
    [reflexivity | change (0 <= 0 < 10000000); lia
    | change (0 <= 48 < 256); lia].
Defined.

Lemma zero_trim_is_no_trim_witness :
  let cfg := THIRTYTWO_KHZ_CLOCK false false in
  let s := final (main_init cfg (power_on 0 0)) in
  same_but_trim_pos (interrupts (set_SW_TRIM true cfg) 9 s)
    (interrupts (set_SW_TRIM false cfg) 9 s).
Proof.
  apply (zero_trim_is_no_trim (THIRTYTWO_KHZ_CLOCK false false) 9
           (final (main_init (THIRTYTWO_KHZ_CLOCK false false)
                     (power_on 0 0)))).
  reflexivity.
Defined.

(** ** Sleeping, in detail *)

Section Sleeping.

Variable cfg : Config.

Lemma eat_tick_eq s :
  let b := sleep_miss_counter s in
  let t' := u32 (seed_update_timer s - 1) in
  eat_tick s =
    if t' =? 0 then
      if s32 (ee_seed s) =? seed s then
        Done b
          (set_sleep_miss_counter (u8 (b - 1))
             (set_seed_update_timer SEED_UPDATE_INTERVAL s))
          [EvConsume b]
      else
        Done b
          (set_sleep_miss_counter (u8 (b - 1))
             (set_seed_update_timer SEED_UPDATE_INTERVAL
                (set_ee_seed (u32 (seed s)) s)))
          [EvEeWrite (u32 (seed s)); EvConsume b]
    else
      Done b
        (set_sleep_miss_counter (u8 (b - 1)) (set_seed_update_timer t' s))
        [EvConsume b].
Proof.
  cbv zeta. unfold eat_tick.
  unfold bind at 1 2. unfold read at 1. unfold modify at 1.
  unfold bind at 1.
  destruct (u32 (seed_update_timer s - 1) =? 0).
  - unfold bind at 1. rewrite updateSeed_eq.
    cbn [ee_seed seed set_seed_update_timer].
    destruct (s32 (ee_seed s) =? seed s);
      unfold bind, read, modify, emit, ret; destruct s; reflexivity.
  - unfold bind, read, modify, emit, ret. destruct s; reflexivity.
Qed.

Lemma ISR_frame_store s :
  seed_update_timer (ISR cfg s) = seed_update_timer s /\
  ee_seed (ISR cfg s) = ee_seed s /\ ee_trim (ISR cfg s) = ee_trim s.
Proof.
  unfold ISR.
  repeat match goal with
         | |- context [if ?b then _ else _] => destruct b
         end; repeat split.
Qed.

(** Everything a call of [doSleep] that cannot lock up does. *)
Lemma doSleep_facts s :
  calm cfg s ->
  let b := sleep_miss_counter s in
  let t' := u32 (seed_update_timer s - 1) in
  exists s' w,
    doSleep cfg s
      = Done tt s' (w ++ EvConsume b :: if b =? 0 then [EvSleep] else []) /\
    at_most_a_write w /\ calm cfg s' /\
    seed s' = seed s /\ lastTick s' = lastTick s /\ PORTB s' = PORTB s /\
    sleep_miss_counter s' = (if b =? 0 then 0 else u8 (b - 1)) /\
    seed_update_timer s' = (if t' =? 0 then SEED_UPDATE_INTERVAL else t') /\
    (synced s \/ t' <> 0 -> w = [] /\ ee_seed s' = ee_seed s) /\
    (t' = 0 -> is_s32 (seed s) -> synced s').
Proof.
  intros C. cbv zeta. unfold doSleep. unfold bind at 1.
  pose proof (eat_tick_eq s) as E. cbv zeta in E.
  set (b := sleep_miss_counter s) in *.
  set (t' := u32 (seed_update_timer s - 1)) in *.
  assert (K : exists s1 w,
             eat_tick s = Done b s1 (w ++ [EvConsume b]) /\
             at_most_a_write w /\
             seed s1 = seed s /\ lastTick s1 = lastTick s /\
             PORTB s1 = PORTB s /\ sleep_miss_counter s1 = u8 (b - 1) /\
             seed_update_timer s1
               = (if t' =? 0 then SEED_UPDATE_INTERVAL else t') /\
             (synced s \/ t' <> 0 -> w = [] /\ ee_seed s1 = ee_seed s) /\
             (t' = 0 -> is_s32 (seed s) -> synced s1)).
  { rewrite E. unfold synced.
    destruct (Z.eqb_spec t' 0) as [T0 | TN].
    - destruct (Z.eqb_spec (s32 (ee_seed s)) (seed s)) as [S | NS].
      + eexists _, []. split; [reflexivity|].
        split; [left; reflexivity|].
        do 5 (split; [reflexivity|]). split.
        * intros _. split; reflexivity.
        * intros _ _. exact S.
      + eexists _, [_]. split; [reflexivity|].
        split; [right; eexists; reflexivity|].
        do 5 (split; [reflexivity|]). split.
        * intros [S | T]; contradiction.
        * intros _ H. apply s32_u32. exact H.
    - eexists _, []. split; [reflexivity|].
      split; [left; reflexivity|].
      do 5 (split; [reflexivity|]). split.
      + intros _. split; reflexivity.
      + intros T. contradiction. }
  destruct K as (s1 & w & K0 & W & F1 & F2 & F3 & F4 & F5 & F6 & F7).
  rewrite K0.
  destruct (Z.eqb_spec b 0) as [Z0 | NZ].
  - unfold sleep_mode, bind, emit, modify.
    destruct (ISR_frame cfg s1) as (G1 & G2 & G3 & G4).
    destruct (ISR_frame_store s1) as (G5 & G6 & _).
    assert (G7 : sleep_miss_counter (ISR cfg s1) = 0)
      by (rewrite G4, F4, Z0; reflexivity).
    exists (ISR cfg s1), w. split.
    { rewrite <- !app_assoc. reflexivity. }
    split; [exact W|]. split; [right; exact G7|].
    rewrite G1, G2, G3, G5, G6, G7. unfold synced in *. rewrite G1, G6.
    do 5 (split; [assumption || reflexivity|]). split; assumption.
  - destruct C as [D | Z0]; [|contradiction]. rewrite D. unfold ret.
    exists s1, w. split.
    { rewrite <- !app_assoc. reflexivity. }
    split; [exact W|]. split; [left; exact D|].
    do 5 (split; [assumption|]). split; assumption.
Qed.

End Sleeping.

Section SleepingProperties.

Variable cfg : Config.

Lemma eeprom_writes_app a b :
  eeprom_writes (a ++ b) = eeprom_writes a ++ eeprom_writes b.
Proof. unfold eeprom_writes. apply flat_map_app. Qed.

Lemma eeprom_writes_tail b :
  eeprom_writes (EvConsume b :: if b =? 0 then [EvSleep] else []) = [].
Proof. destruct (b =? 0); reflexivity. Qed.

Lemma sleeps_count_down n : forall s,
  calm cfg s -> Z.of_nat n < seed_update_timer s < 2 ^ 32 ->
  exists s' evs,
    for_loop n (doSleep cfg) s = Done tt s' evs /\ calm cfg s' /\
    seed_update_timer s' = seed_update_timer s - Z.of_nat n /\
    ee_seed s' = ee_seed s /\ seed s' = seed s /\
    eeprom_writes evs = [].
Proof.
  induction n as [|n IH]; intros s C T.
  - exists s, []. cbn [for_loop]. unfold ret.
    repeat split; try assumption. cbn [Z.of_nat]. lia.
  - destruct (doSleep_facts cfg s C)
      as (s1 & w & E & _ & C1 & S1 & _ & _ & _ & T1 & W1 & _).
    assert (U : u32 (seed_update_timer s - 1) = seed_update_timer s - 1)
      by (apply u32_small; lia).
    rewrite U in T1, W1.
    destruct (Z.eqb_spec (seed_update_timer s - 1) 0) as [Z0 | NZ]; [lia|].
    destruct (W1 (or_intror NZ)) as [-> E1].
    destruct (IH s1 C1 ltac:(lia)) as (s2 & e2 & E2 & C2 & T2 & F2 & S2 & W2).
    eexists s2, _. cbn [for_loop]. unfold bind. rewrite E, E2.
    split; [reflexivity|].
    rewrite !eeprom_writes_app, eeprom_writes_tail, W2.
    repeat split; try assumption; try congruence. lia.
Qed.

(** X11. The seed is persisted on the last count of the countdown and
    not before: when the seed-update timer holds t, the next t - 1
    calls of [doSleep] leave the EEPROM alone, and the call after them
    leaves the EEPROM holding the seed, with at most one write, and
    restarts the timer at 864000. *)
Theorem seed_persisted_on_the_last_count (n : nat) (s : State) :
  calm cfg s -> is_s32 (seed s) ->
  0 < seed_update_timer s < 2 ^ 32 ->
  Z.of_nat n = seed_update_timer s - 1 ->
  let o := for_loop n (doSleep cfg) s in
  let o' := doSleep cfg (final o) in
  returns o = true /\ eeprom_writes (events o) = [] /\
  ee_seed (final o) = ee_seed s /\
  returns o' = true /\ synced (final o') /\ seed (final o') = seed s /\
  (length (eeprom_writes (events o')) <= 1)%nat /\
  seed_update_timer (final o') = SEED_UPDATE_INTERVAL.
Proof.
  intros C H T N. cbv zeta.
  destruct (sleeps_count_down n s C ltac:(lia))
    as (s1 & e1 & E1 & C1 & T1 & F1 & S1 & W1).
  rewrite E1. cbn [returns events final].
  destruct (doSleep_facts cfg s1 C1)
    as (s2 & w & E2 & W & _ & S2 & _ & _ & _ & T2 & _ & Y).
  assert (U : u32 (seed_update_timer s1 - 1) = 0)
    by (rewrite T1; replace (seed_update_timer s - Z.of_nat n - 1) with 0
          by lia; reflexivity).
  rewrite U in T2, Y. cbn [Z.eqb] in T2.
  rewrite E2. cbn [returns events final].
  rewrite eeprom_writes_app, eeprom_writes_tail, app_nil_r.
  repeat split; try assumption; try congruence.
  - apply Y; [reflexivity | congruence].
  - destruct W as [-> | [v ->]]; cbn; lia.
Qed.

Lemma behind_count_down n : forall s,
  DEBUG cfg = false -> sleep_miss_counter s = Z.of_nat n ->
  (n <= 255)%nat ->
  exists s' evs,
    for_loop n (doSleep cfg) s = Done tt s' evs /\
    sleep_miss_counter s' = 0 /\
    existsb is_sleep evs = false /\ ticks_consumed evs = n.
Proof.
  induction n as [|n IH]; intros s D B L.
  - exists s, []. repeat split. exact B.
  - destruct (doSleep_facts cfg s (or_introl D))
      as (s1 & w & E & W & _ & _ & _ & _ & B1 & _).
    rewrite B in E, B1.
    destruct (Z.eqb_spec (Z.of_nat (S n)) 0) as [Z0 | _]; [lia|].
    assert (B1' : sleep_miss_counter s1 = Z.of_nat n).
    { rewrite B1. unfold u8. rewrite Z.mod_small; lia. }
    destruct (IH s1 D B1' ltac:(lia)) as (s2 & e2 & E2 & Z2 & N2 & T2).
    eexists s2, _. cbn [for_loop]. unfold bind. rewrite E, E2.
    split; [reflexivity|]. split; [exact Z2|].
    destruct (quiet_counts w W) as [Cw _].
    rewrite !existsb_app, !ticks_consumed_app, (quiet_no_sleep w W), N2, Cw, T2.
    split; reflexivity.
Qed.

(** X12. Without DEBUG a backlog is repaid by not sleeping: with b
    ticks outstanding the next b calls of [doSleep] all return without
    entering sleep and bring the counter to 0, and the call after them
    sleeps. *)
Theorem backlog_is_repaid (s : State) :
  DEBUG cfg = false -> 0 <= sleep_miss_counter s <= 255 ->
  let b := Z.to_nat (sleep_miss_counter s) in
  let o := for_loop b (doSleep cfg) s in
  returns o = true /\
  existsb is_sleep (events o) = false /\
  ticks_consumed (events o) = b /\
  sleep_miss_counter (final o) = 0 /\
  sleeps cfg (final o) = true.
Proof.
  intros D B. cbv zeta.
  destruct (behind_count_down (Z.to_nat (sleep_miss_counter s)) s D
              ltac:(lia) ltac:(lia)) as (s' & evs & E & Z0 & N & T).
  rewrite E. cbn [returns events final].
  rewrite sleeps_iff_zero, Z0. repeat split; assumption.
Qed.

Lemma u8_testbit v i : 0 <= i < 8 -> Z.testbit (u8 v) i = Z.testbit v i.
Proof. intros H. unfold u8. apply Z.mod_pow2_bits_low. lia. Qed.

(** X13. With DEBUG a tick outstanding is fatal: the call of [doSleep]
    that finds one never returns and never sleeps; it raises the spare
    pin and leaves the two coil pins as they were. *)
Theorem debug_halts_on_backlog (s : State) :
  DEBUG cfg = true -> sleep_miss_counter s <> 0 ->
  let o := doSleep cfg s in
  returns o = false /\
  existsb is_sleep (events o) = false /\
  port_values (events o) = [PORTB (final o)] /\
  Z.testbit (PORTB (final o)) P_UNUSED = true /\
  Z.testbit (PORTB (final o)) P0 = Z.testbit (PORTB s) P0 /\
  Z.testbit (PORTB (final o)) P1 = Z.testbit (PORTB s) P1.
Proof.
  intros D NZ.
  set (v := u8 (Z.lor (PORTB s) (_BV P_UNUSED))).
  assert (K : returns (doSleep cfg s) = false /\
              existsb is_sleep (events (doSleep cfg s)) = false /\
              port_values (events (doSleep cfg s)) = [v] /\
              PORTB (final (doSleep cfg s)) = v).
  { remember (doSleep cfg s) as o eqn:Eo.
    unfold doSleep in Eo. unfold bind at 1 in Eo.
    pose proof (eat_tick_eq s) as E. cbv zeta in E. rewrite E in Eo.
    assert (B : (sleep_miss_counter s =? 0) = false)
      by (apply Z.eqb_neq; exact NZ).
    destruct (u32 (seed_update_timer s - 1) =? 0);
      [destruct (s32 (ee_seed s) =? seed s)|];
      rewrite B, D in Eo;
      unfold write_PORTB, lock_up, bind, read, emit, modify in Eo;
      subst o; repeat split. }
  destruct K as (R & S & V & P). cbv zeta. rewrite R, S, V, P.
  unfold v. rewrite !u8_testbit by (unfold P0, P1, P_UNUSED; lia).
  rewrite !Z.lor_spec.
  change (Z.testbit (_BV P_UNUSED) P_UNUSED) with true.
  change (Z.testbit (_BV P_UNUSED) P0) with false.
  change (Z.testbit (_BV P_UNUSED) P1) with false.
  rewrite !orb_false_r, orb_true_r. repeat split.
Qed.

(** X14. A main context that is interrupted only while it sleeps never
    locks up, DEBUG or not: from a state with no tick outstanding every
    sequence of calls of [doTick] and [doSleep] returns, having slept
    once per call, with no tick outstanding. *)
Theorem no_lockup_without_overrun (cs : list Call) (s : State) :
  sleep_miss_counter s = 0 ->
  let o := steps cfg (map Main cs) s in
  returns o = true /\
  sleep_miss_counter (final o) = 0 /\
  ticks_consumed (events o) = length cs /\
  length (filter is_sleep (events o)) = length cs.
Proof.
  revert s. induction cs as [|c cs IH]; intros s Z0; cbv zeta.
  - repeat split. exact Z0.
  - assert (K : exists s1 e1,
               call cfg c s = Done tt s1 e1 /\ sleep_miss_counter s1 = 0 /\
               ticks_consumed e1 = 1%nat /\
               length (filter is_sleep e1) = 1%nat).
    { assert (Q : forall x,
                 sleep_miss_counter x = 0 ->
                 exists s1 e1,
                   doSleep cfg x = Done tt s1 e1 /\
                   sleep_miss_counter s1 = 0 /\
                   ticks_consumed e1 = 1%nat /\
                   length (filter is_sleep e1) = 1%nat).
      { intros x X0.
        destruct (doSleep_facts cfg x (or_intror X0))
          as (s1 & w & E & W & _ & _ & _ & _ & B1 & _).
        rewrite X0 in E, B1. cbn [Z.eqb] in E, B1.
        exists s1, (w ++ [EvConsume 0; EvSleep]).
        destruct (quiet_counts w W) as [Cw _].
        rewrite ticks_consumed_app, Cw, filter_app, length_app.
        repeat split; try assumption.
        destruct W as [-> | [v ->]]; reflexivity. }
      destruct c; cbn [call].
      - rewrite doTick_eq. cbv zeta.
        match goal with |- context [doSleep cfg ?x] =>
          destruct (Q x Z0) as (s1 & e1 & E & B1 & T1 & L1); rewrite E end.
        eexists _, _. split; [reflexivity|].
        rewrite ticks_consumed_app, filter_app, length_app, T1, L1.
        repeat split. exact B1.
      - apply Q. exact Z0. }
    destruct K as (s1 & e1 & E1 & B1 & T1 & L1).
    destruct (IH s1 B1) as (R2 & B2 & T2 & L2).
    cbn [map steps step]. unfold bind. rewrite E1.
    destruct (steps cfg (map Main cs) s1) as [[] s2 e2 | s2 e2];
      [|discriminate].
    cbn [returns final events] in *.
    rewrite ticks_consumed_app, filter_app, length_app, T1, T2, L1, L2.
    repeat split. exact B2.
Qed.

End SleepingProperties.

Lemma seed_persisted_on_the_last_count_witness :
  let cfg := FOUR_MHZ_CLOCK false true in
  let s := set_seed_update_timer 4 (set_seed 77 (power_on 5 0)) in
  let o := for_loop 3 (doSleep cfg) s in
  let o' := doSleep cfg (final o) in
  returns o = true /\ eeprom_writes (events o) = [] /\
  ee_seed (final o) = ee_seed s /\
  returns o' = true /\ synced (final o') /\ seed (final o') = seed s /\
  (length (eeprom_writes (events o')) <= 1)%nat /\
  seed_update_timer (final o') = SEED_UPDATE_INTERVAL.
Proof.
  apply (seed_persisted_on_the_last_count (FOUR_MHZ_CLOCK false true) 3
           (set_seed_update_timer 4 (set_seed 77 (power_on 5 0)))).
  - right. reflexivity.
  - unfold is_s32. simpl. lia.
  - simpl. lia.
  - reflexivity.
Defined.

Lemma backlog_is_repaid_witness :
  let cfg := THIRTYTWO_KHZ_CLOCK false false in
  let s := set_sleep_miss_counter 3 (power_on 0 0) in
  let b := Z.to_nat (sleep_miss_counter s) in
  let o := for_loop b (doSleep cfg) s in
  returns o = true /\
  existsb is_sleep (events o) = false /\
  ticks_consumed (events o) = b /\
  sleep_miss_counter (final o) = 0 /\
  sleeps cfg (final o) = true.
Proof.
  apply (backlog_is_repaid (THIRTYTWO_KHZ_CLOCK false false)
           (set_sleep_miss_counter 3 (power_on 0 0))).
  - reflexivity.
  - simpl. lia.
Defined.

Lemma debug_halts_on_backlog_witness :
  let cfg := FOUR_MHZ_CLOCK false true in
  let s := set_sleep_miss_counter 1 (power_on 0 0) in
  let o := doSleep cfg s in
  returns o = false /\
  existsb is_sleep (events o) = false /\
  port_values (events o) = [PORTB (final o)] /\
  Z.testbit (PORTB (final o)) P_UNUSED = true /\
  Z.testbit (PORTB (final o)) P0 = Z.testbit (PORTB s) P0 /\
  Z.testbit (PORTB (final o)) P1 = Z.testbit (PORTB s) P1.
Proof.
  apply (debug_halts_on_backlog (FOUR_MHZ_CLOCK false true)
           (set_sleep_miss_counter 1 (power_on 0 0))).
  - reflexivity.
  - simpl. lia.
Defined.

Lemma no_lockup_without_overrun_witness :
  let cfg := FOUR_MHZ_CLOCK false true in
  let cs := [CallTick; CallSleep; CallTick] in
  let s := final (main_init cfg (power_on 0 0)) in
  let o := steps cfg (map Main cs) s in
  returns o = true /\
  sleep_miss_counter (final o) = 0 /\
  ticks_consumed (events o) = length cs /\
  length (filter is_sleep (events o)) = length cs.
Proof.
  apply (no_lockup_without_overrun (FOUR_MHZ_CLOCK false true)
           [CallTick; CallSleep; CallTick]
           (final (main_init (FOUR_MHZ_CLOCK false true) (power_on 0 0)))).
  reflexivity.
Defined.

(** ** The lazy clock, end to end *)

Section LazyEndToEnd.

Variable cfg : Config.

(** Everything a call of [doTick] that cannot lock up does. *)
Lemma doTick_facts s :
  calm cfg s ->
  let b := sleep_miss_counter s in
  let pin := TICK_PIN (lastTick s) in
  let v1 := u8 (Z.lor (PORTB s) (_BV pin)) in
  let v2 := u8 (Z.land v1 (Z.lnot (_BV pin))) in
  exists s' w,
    doTick cfg s
      = Done tt s'
          ([EvPort v1; EvDelay TICK_LENGTH; EvPort v2]
           ++ w ++ EvConsume b :: if b =? 0 then [EvSleep] else []) /\
    at_most_a_write w /\ calm cfg s' /\
    seed s' = seed s /\ lastTick s' = pin /\ PORTB s' = v2 /\
    sleep_miss_counter s' = (if b =? 0 then 0 else u8 (b - 1)) /\
    (synced s -> w = [] /\ ee_seed s' = ee_seed s).
Proof.
  intros C. cbv zeta. rewrite doTick_eq. cbv zeta.
  match goal with |- context [doSleep cfg ?x] =>
    destruct (doSleep_facts cfg x C)
      as (s' & w & E & W & C' & F1 & F2 & F3 & F4 & _ & F6 & _);
      rewrite E end.
  exists s', w. split; [reflexivity|].
  split; [exact W|]. split; [exact C'|].
  do 4 (split; [assumption|]).
  intros S. apply F6. left. exact S.
Qed.

Lemma for_loop_inv (P : State -> Prop) (Q : list Event -> Prop)
    (body : Prog unit) :
  Q [] -> (forall a b, Q a -> Q b -> Q (a ++ b)) ->
  (forall s, P s -> exists s' evs, body s = Done tt s' evs /\ P s' /\ Q evs) ->
  forall n s, P s ->
    exists s' evs, for_loop n body s = Done tt s' evs /\ P s' /\ Q evs.
Proof.
  intros Q0 Qapp B. induction n as [|n IH]; intros s Ps.
  - exists s, []. repeat split; assumption.
  - destruct (B s Ps) as (s1 & e1 & E1 & P1' & Q1).
    destruct (IH s1 P1') as (s2 & e2 & E2 & P2 & Q2).
    exists s2, (e1 ++ e2). cbn [for_loop]. unfold bind. rewrite E1, E2.
    repeat split; auto.
Qed.

Lemma no_write_app a b :
  no_eeprom_write a -> no_eeprom_write b -> no_eeprom_write (a ++ b).
Proof.
  unfold no_eeprom_write. intros A B.
  rewrite eeprom_writes_app, A, B. reflexivity.
Qed.

Section Settled.

(** Between battery changes: no call can lock up, and the seed in
    memory and the dword in the EEPROM are both [q]. *)
Variable q : Z.
Hypothesis q_range : 0 <= q < M.

Let settled (s : State) : Prop :=
  calm cfg s /\ seed s = q /\ ee_seed s = q.

Lemma settled_synced s : settled s -> synced s.
Proof.
  intros (_ & S & E). unfold synced. rewrite S, E.
  apply s32_id. unfold is_s32, M in *. lia.
Qed.

Lemma doSleep_settled s :
  settled s ->
  exists s' evs,
    doSleep cfg s = Done tt s' evs /\ settled s' /\ no_eeprom_write evs.
Proof.
  intros H. pose proof (settled_synced s H) as S.
  destruct H as (C & Q & E0).
  destruct (doSleep_facts cfg s C)
    as (s' & w & E & _ & C' & F1 & _ & _ & _ & _ & F6 & _).
  destruct (F6 (or_introl S)) as [-> F7].
  eexists s', _. split; [exact E|]. split.
  - unfold settled. rewrite F1, F7. auto.
  - unfold no_eeprom_write. cbn [app]. apply eeprom_writes_tail.
Qed.

Lemma doTick_settled s :
  settled s ->
  exists s' evs,
    doTick cfg s = Done tt s' evs /\ settled s' /\ no_eeprom_write evs.
Proof.
  intros H. pose proof (settled_synced s H) as S.
  destruct H as (C & Q & E0).
  destruct (doTick_facts s C) as (s' & w & E & _ & C' & F1 & _ & _ & _ & F6).
  destruct (F6 S) as [-> F7].
  eexists s', _. split; [exact E|]. split.
  - unfold settled. rewrite F1, F7. auto.
  - unfold no_eeprom_write. cbn [app eeprom_writes flat_map].
    apply eeprom_writes_tail.
Qed.

Lemma tick_and_sleep_settled s :
  settled s ->
  exists s' evs,
    (doTick cfg ;; doSleep cfg) s = Done tt s' evs /\ settled s' /\
    no_eeprom_write evs.
Proof.
  intros H.
  destruct (doTick_settled s H) as (s1 & e1 & E1 & H1 & Q1).
  destruct (doSleep_settled s1 H1) as (s2 & e2 & E2 & H2 & Q2).
  exists s2, (e1 ++ e2). unfold bind. rewrite E1, E2.
  split; [reflexivity|]. split; [exact H2|].
  apply no_write_app; assumption.
Qed.

Lemma loop_iteration_settled r a s :
  settled s ->
  exists a' s' evs,
    loop_iteration cfg r a s = Done a' s' evs /\ settled s' /\
    no_eeprom_write evs.
Proof.
  intros H. unfold loop_iteration. unfold bind at 1.
  assert (U : exists a',
             (if u32 (a - 1) =? 0
              then updateSeed ;; ret SEED_UPDATE_INTERVAL
              else ret (u32 (a - 1))) s = Done a' s []).
  { destruct (u32 (a - 1) =? 0).
    - unfold bind. rewrite updateSeed_eq.
      pose proof (settled_synced s H) as S. unfold synced in S.
      rewrite S, Z.eqb_refl. eexists. reflexivity.
    - eexists. reflexivity. }
  destruct U as (a' & ->).
  destruct (for_loop_inv settled no_eeprom_write _ eq_refl no_write_app
              tick_and_sleep_settled (Z.to_nat (tick_count r)) s H)
    as (s1 & e1 & E1 & H1 & Q1).
  destruct (for_loop_inv settled no_eeprom_write _ eq_refl no_write_app
              doSleep_settled (Z.to_nat (s16 (tick_count r * 8))) s1 H1)
    as (s2 & e2 & E2 & H2 & Q2).
  exists a', s2, (e1 ++ e2).
  unfold bind at 1. rewrite E1.
  unfold bind at 1. rewrite E2. unfold ret.
  cbn [app]. rewrite app_nil_r.
  split; [reflexivity|]. split; [exact H2|].
  apply no_write_app; assumption.
Qed.

Lemma loop_settled rs : forall a s,
  settled s ->
  exists a' s' evs,
    loop cfg rs a s = Done a' s' evs /\
    (calm cfg s' /\ seed s' = q /\ ee_seed s' = q) /\
    no_eeprom_write evs.
Proof.
  induction rs as [|r rs IH]; intros a s H.
  - exists a, s, []. split; [reflexivity|]. split; [exact H | reflexivity].
  - destruct (loop_iteration_settled r a s H)
      as (a1 & s1 & e1 & E1 & H1 & Q1).
    destruct (IH a1 s1 H1) as (a2 & s2 & e2 & E2 & H2 & Q2).
    exists a2, s2, (e1 ++ e2). cbn [loop]. unfold bind. rewrite E1, E2.
    split; [reflexivity|]. split; [exact H2|].
    apply no_write_app; assumption.
Qed.

End Settled.

(** X15. The lazy clock writes its EEPROM once per battery change:
    whatever the EEPROM holds at reset and whatever [random()] returns,
    start-up followed by any number of passes of the lazy loop returns
    having made exactly one EEPROM write, that of the start-up seed,
    which is still the seed in memory and in the EEPROM at the end. *)
Theorem lazy_clock_writes_eeprom_once (e t : Z) (rs : list Z) :
  is_u32 e ->
  let o := (main_init cfg ;; loop cfg rs SEED_UPDATE_INTERVAL) (power_on e t) in
  returns o = true /\
  eeprom_writes (events o) = [seed (final o)] /\
  seed (final o) = q_step (guard_seed (s32 e)) /\
  ee_seed (final o) = seed (final o).
Proof.
  intros H. cbv zeta.
  assert (U : is_u32 (ee_seed (power_on e t))) by exact H.
  destruct (main_init_stored cfg _ U) as (S0 & F0 & R).
  cbn [power_on ee_seed] in S0, F0, R.
  set (q := q_step (guard_seed (s32 e))) in *.
  pose proof (main_init_eq cfg (power_on e t)) as E0. cbv zeta in E0.
  cbn [power_on ee_seed] in E0. fold q in E0.
  destruct (Z.eqb_spec (s32 e) q) as [B | _].
  { exfalso. apply (perturbed_differs (s32 e) (s32_range e)).
    symmetry. exact B. }
  rewrite E0 in S0, F0.
  match type of E0 with _ = Done tt ?s0 _ =>
    assert (St : calm cfg s0 /\ seed s0 = q /\ ee_seed s0 = q)
      by (split; [right; reflexivity | split; assumption]);
    destruct (loop_settled q R rs SEED_UPDATE_INTERVAL s0 St)
      as (a' & s' & evs & E & (C' & Sq & Eq) & Si)
  end.
  unfold bind. rewrite E0, E. cbn [returns events final].
  unfold no_eeprom_write in Si.
  rewrite eeprom_writes_app, Si, Sq, Eq.
  cbn [eeprom_writes flat_map app].
  rewrite u32_small by (unfold M in R; lia).
  repeat split.
Qed.

End LazyEndToEnd.

Lemma lazy_clock_writes_eeprom_once_witness :
  let cfg := FOUR_MHZ_CLOCK false true in
  let rs := [1804289383; 846930886; 29] in
  let o := (main_init cfg ;; loop cfg rs SEED_UPDATE_INTERVAL)
             (power_on 0xFFFFFFFF 0) in
  returns o = true /\
  eeprom_writes (events o) = [seed (final o)] /\
  seed (final o) = q_step (guard_seed (s32 0xFFFFFFFF)) /\
  ee_seed (final o) = seed (final o).
Proof.
  apply (lazy_clock_writes_eeprom_once (FOUR_MHZ_CLOCK false true)
           0xFFFFFFFF 0 [1804289383; 846930886; 29]).
  unfold is_u32. lia.
Defined.

(** ** What the lazy clock looks like *)

Section LazyPattern.

Variable cfg : Config.

Lemma quiet_unobservable w :
  at_most_a_write w -> filter is_observable w = [].
Proof. intros [-> | [v ->]]; reflexivity. Qed.

Lemma idle_sleep s :
  sleep_miss_counter s = 0 ->
  exists s' evs,
    doSleep cfg s = Done tt s' evs /\ sleep_miss_counter s' = 0 /\
    PORTB s' = PORTB s /\ lastTick s' = lastTick s /\
    filter is_observable evs = [EvSleep].
Proof.
  intros Z0.
  destruct (doSleep_facts cfg s (or_intror Z0))
    as (s' & w & E & W & _ & _ & F2 & F3 & F4 & _).
  rewrite Z0 in E, F4. cbn [Z.eqb] in E, F4.
  eexists s', _. split; [exact E|].
  rewrite filter_app, (quiet_unobservable w W).
  repeat split; assumption.
Qed.

Lemma idle_tick s :
  sleep_miss_counter s = 0 -> PORTB s = 0 ->
  exists s' evs,
    doTick cfg s = Done tt s' evs /\ sleep_miss_counter s' = 0 /\
    PORTB s' = 0 /\ lastTick s' = TICK_PIN (lastTick s) /\
    filter is_observable evs
      = [EvPort (_BV (TICK_PIN (lastTick s))); EvDelay TICK_LENGTH;
         EvPort 0; EvSleep].
Proof.
  intros Z0 P.
  destruct (doTick_facts cfg s (or_intror Z0))
    as (s' & w & E & W & _ & _ & F2 & F3 & F4 & _).
  rewrite Z0, P in *. cbn [Z.eqb] in E, F4.
  destruct (pulse_on_low_port (lastTick s)) as [V1 V2]. cbv zeta in V1, V2.
  rewrite V1 in E, F3. rewrite V2 in E, F3.
  eexists s', _. split; [exact E|].
  rewrite !filter_app, (quiet_unobservable w W).
  repeat split; assumption.
Qed.

Lemma burst_loop n : forall s,
  sleep_miss_counter s = 0 -> PORTB s = 0 ->
  exists s' evs,
    for_loop n (doTick cfg ;; doSleep cfg) s = Done tt s' evs /\
    sleep_miss_counter s' = 0 /\ PORTB s' = 0 /\
    lastTick s' = Nat.iter n TICK_PIN (lastTick s) /\
    filter is_observable evs = burst n (lastTick s).
Proof.
  induction n as [|n IH]; intros s Z0 P.
  - exists s, []. repeat split; assumption.
  - destruct (idle_tick s Z0 P) as (s1 & e1 & E1 & Z1 & P1' & L1 & O1).
    destruct (idle_sleep s1 Z1) as (s2 & e2 & E2 & Z2 & P2 & L2 & O2).
    rewrite P1' in P2.
    destruct (IH s2 Z2 P2) as (s3 & e3 & E3 & Z3 & P3 & L3 & O3).
    exists s3, ((e1 ++ e2) ++ e3).
    cbn [for_loop]. unfold bind. rewrite E1, E2.
    unfold bind in E3. rewrite E3.
    split; [reflexivity|].
    rewrite !filter_app, O1, O2, O3, L3, L2, L1, Nat.iter_succ_r.
    repeat split; assumption.
Qed.

Lemma idle_loop k : forall s,
  sleep_miss_counter s = 0 ->
  exists s' evs,
    for_loop k (doSleep cfg) s = Done tt s' evs /\
    sleep_miss_counter s' = 0 /\ PORTB s' = PORTB s /\
    lastTick s' = lastTick s /\
    filter is_observable evs = repeat EvSleep k.
Proof.
  induction k as [|k IH]; intros s Z0.
  - exists s, []. repeat split; assumption.
  - destruct (idle_sleep s Z0) as (s1 & e1 & E1 & Z1 & P1' & L1 & O1).
    destruct (IH s1 Z1) as (s2 & e2 & E2 & Z2 & P2 & L2 & O2).
    exists s2, (e1 ++ e2). cbn [for_loop]. unfold bind. rewrite E1, E2.
    split; [reflexivity|].
    rewrite filter_app, O1, O2. cbn [repeat app].
    repeat split; congruence.
Qed.

(** X16. What a pass of the lazy loop looks like when it starts with
    the port low and no tick outstanding: n pulses on alternating pins,
    each 35 ms long and followed by two sleeps, so two ticks apart; then
    8n sleeps with the port low.  The pass sleeps through 10n ticks in
    all and ends as it started, with the pin to drive next advanced n
    times. *)
Theorem lazy_pass_pattern (r a : Z) (s : State) :
  0 <= r < 2 ^ 31 ->
  sleep_miss_counter s = 0 -> PORTB s = 0 ->
  let n := Z.to_nat (tick_count r) in
  let o := loop_iteration cfg r a s in
  filter is_observable (events o)
    = burst n (lastTick s) ++ repeat EvSleep (8 * n) /\
  length (filter is_sleep (events o)) = (10 * n)%nat /\
  lastTick (final o) = Nat.iter n TICK_PIN (lastTick s) /\
  sleep_miss_counter (final o) = 0 /\ PORTB (final o) = 0.
Proof.
  intros R Z0 P. cbv zeta.
  destruct (tick_count_range r R) as [_ T].
  assert (K : exists a' s' evs,
             loop_iteration cfg r a s = Done a' s' evs /\
             filter is_observable evs
               = burst (Z.to_nat (tick_count r)) (lastTick s)
                 ++ repeat EvSleep (8 * Z.to_nat (tick_count r)) /\
             lastTick s'
               = Nat.iter (Z.to_nat (tick_count r)) TICK_PIN (lastTick s) /\
             sleep_miss_counter s' = 0 /\ PORTB s' = 0).
  { unfold loop_iteration. unfold bind at 1.
    assert (U : exists a' s0 w,
               (if u32 (a - 1) =? 0
                then updateSeed ;; ret SEED_UPDATE_INTERVAL
                else ret (u32 (a - 1))) s = Done a' s0 w /\
               sleep_miss_counter s0 = 0 /\ PORTB s0 = 0 /\
               lastTick s0 = lastTick s /\ at_most_a_write w).
    { destruct (u32 (a - 1) =? 0).
      - destruct (updateSeed_spec s) as (e' & w & E & W).
        unfold bind, ret. rewrite E.
        exists SEED_UPDATE_INTERVAL, (set_ee_seed e' s), (w ++ []).
        rewrite app_nil_r. repeat split; assumption.
      - exists (u32 (a - 1)), s, []. unfold ret.
        repeat split; try assumption. left; reflexivity. }
    destruct U as (a' & s0 & w & E0 & Z0' & P0' & L0 & W). rewrite E0.
    destruct (burst_loop (Z.to_nat (tick_count r)) s0 Z0' P0')
      as (s1 & e1 & E1 & Z1 & P1' & L1 & O1).
    assert (S16 : Z.to_nat (s16 (tick_count r * 8))
                  = (8 * Z.to_nat (tick_count r))%nat).
    { unfold s16. rewrite Z.mod_small by lia. lia. }
    rewrite S16.
    destruct (idle_loop (8 * Z.to_nat (tick_count r)) s1 Z1)
      as (s2 & e2 & E2 & Z2 & P2 & L2 & O2).
    exists a', s2, (w ++ e1 ++ e2 ++ []).
    unfold bind at 1. rewrite E1.
    unfold bind at 1. rewrite E2. unfold ret.
    split; [reflexivity|].
    rewrite !filter_app, (quiet_unobservable w W), O1, O2, L0.
    cbn [filter app]. rewrite app_nil_r.
    repeat split; congruence. }
  destruct K as (a' & s' & evs & E & O & L & Z1 & P1').
  rewrite E. cbn [events final].
  split; [exact O|]. split; [|repeat split; assumption].
  assert (F : forall l, filter is_sleep (filter is_observable l)
                        = filter is_sleep l).
  { induction l as [|x l IH]; [reflexivity|].
    destruct x; cbn [filter is_observable is_sleep]; rewrite ?IH;
      reflexivity. }
  rewrite <- F, O, filter_app, length_app.
  assert (B : forall m last,
            length (filter is_sleep (burst m last)) = (2 * m)%nat).
  { induction m as [|m IH]; intros last; [reflexivity|].
    cbn [burst filter is_sleep length]. rewrite IH. lia. }
  assert (S : forall m, length (filter is_sleep (repeat EvSleep m)) = m).
  { induction m as [|m IH]; [reflexivity|].
    cbn [repeat filter is_sleep length]. rewrite IH. reflexivity. }
  rewrite B, S. lia.
Qed.

End LazyPattern.

Lemma lazy_pass_pattern_witness :
  let cfg := THIRTYTWO_KHZ_CLOCK false true in
  let s := final (main_init cfg (power_on 0 0)) in
  let n := Z.to_nat (tick_count 61) in
  let o := loop_iteration cfg 61 SEED_UPDATE_INTERVAL s in
  filter is_observable (events o)
    = burst n (lastTick s) ++ repeat EvSleep (8 * n) /\
  length (filter is_sleep (events o)) = (10 * n)%nat /\
  lastTick (final o) = Nat.iter n TICK_PIN (lastTick s) /\
  sleep_miss_counter (final o) = 0 /\ PORTB (final o) = 0.
Proof.
  apply (lazy_pass_pattern (THIRTYTWO_KHZ_CLOCK false true) 61
           SEED_UPDATE_INTERVAL
           (final (main_init (THIRTYTWO_KHZ_CLOCK false true) (power_on 0 0))));
    [lia | reflexivity | reflexivity].
Defined.

(** ** What the handler leaves alone *)

Section Ownership.

Variable cfg : Config.

(** X17. However many interrupts are taken, the handler changes nothing
    that belongs to the main context: the seed, the seed-update timer,
    the pin last driven, the port and both EEPROM slots stay as they
    were, and the shared counter has gone up by the number of
    interrupts modulo 256. *)
Theorem interrupts_leave_main_context_alone (k : nat) (s : State) :
  0 <= sleep_miss_counter s < 256 ->
  let sk := interrupts cfg k s in
  seed sk = seed s /\ seed_update_timer sk = seed_update_timer s /\
  lastTick sk = lastTick s /\ PORTB sk = PORTB s /\
  ee_seed sk = ee_seed s /\ ee_trim sk = ee_trim s /\
  sleep_miss_counter sk = (sleep_miss_counter s + Z.of_nat k) mod 256.
Proof.
  intros B. cbv zeta. induction k as [|k IH].
  - cbn [interrupts Z.of_nat]. rewrite Z.add_0_r, Z.mod_small by exact B.
    repeat split.
  - rewrite interrupts_S.
    destruct IH as (I1 & I2 & I3 & I4 & I5 & I6 & I7).
    destruct (ISR_frame cfg (interrupts cfg k s)) as (F1 & F2 & F3 & F4).
    destruct (ISR_frame_store cfg (interrupts cfg k s)) as (F5 & F6 & F7).
    rewrite F1, F2, F3, F4, F5, F6, F7, I1, I2, I3, I4, I5, I6, I7.
    do 6 (split; [reflexivity|]).
    unfold u8. change (2 ^ 8) with 256.
    rewrite Z.add_mod_idemp_l, Nat2Z.inj_succ by lia.
    f_equal. lia.
Qed.

End Ownership.

Lemma interrupts_leave_main_context_alone_witness :
  let cfg := FOUR_MHZ_CLOCK true false in
  let s := final (main_init cfg (power_on 0 3)) in
  let sk := interrupts cfg 300 s in
  seed sk = seed s /\ seed_update_timer sk = seed_update_timer s /\
  lastTick sk = lastTick s /\ PORTB sk = PORTB s /\
  ee_seed sk = ee_seed s /\ ee_trim sk = ee_trim s /\
  sleep_miss_counter sk = (sleep_miss_counter s + Z.of_nat 300) mod 256.
Proof.
  apply (interrupts_leave_main_context_alone (FOUR_MHZ_CLOCK true false) 300
           (final (main_init (FOUR_MHZ_CLOCK true false) (power_on 0 3)))).
  change (0 <= 0 < 256). lia.
Defined.
